(** * sstool: the recipe compiler of [sstool/main.py]

    A shallow embedding of the resolution code of [sstool/main.py]
    ([validate_recipe_config], [Mirror.__init__],
    [Recipe.generate_package_specs], [Recipe.generate_compiler_specs])
    and the properties of its specification checked against it.

    Further on, the code around them: the paths and the constructor of
    [Recipe] ([Recipe.__init__], [Recipe.configs_path], the value handed to
    the templates as [push_to_cache]), [Build.__init__] and the parts of
    [Build.generate] that decide which configuration files are copied and
    which compilers are named, with the properties that this code shows.

    Conventions.
    - A Python [str] is a [string]; each character is a code point below 256.
    - A Python [dict] is an association list in insertion order: Python
      iterates a dict in insertion order, and the loops of the source depend
      on that order.  A key that is absent is [None] of an [option], or
      [Missing] of an [entry].
    - A raised exception is the left injection of a sum.
    - A method that writes into an object it was handed returns the object
      as it is after the call, next to its outcome.
    - The documents are typed as the recipes of the tool write them; the
      records below say which values each key may hold.  A document that
      holds a value of another type under one of these keys (a package set
      without a body, an mpi that is a boolean, a specs key of a compiler
      stage that is null, a mirror section that is a scalar) is outside the
      model, and so are the [TypeError] and [AttributeError] that the source
      raises on some of them.
    - Every mapping and list of a document is an object of its own: a
      document in which two package sets are the same object, or hold the
      same specs list (a YAML anchor with aliases), is outside the model.
      Statements about what a call leaves in each set are about documents
      without such sharing. *)

From Stdlib Require Import String Ascii List Bool Arith Lia.
Import ListNotations.
Open Scope list_scope.
Open Scope string_scope.

(** ** Python values and exceptions *)

(** YAML scalars as the loader hands them over (numbers are not modelled). *)
Inductive pyval : Type :=
| PNone
| PBool (b : bool)
| PStr (s : string).

(** The value stored under a key of a dict: the key may be missing, hold
    [None], or hold a value of the expected type. *)
Inductive entry (A : Type) : Type :=
| Missing
| PyNone
| Val (a : A).
Arguments Missing {A}.
Arguments PyNone {A}.
Arguments Val {A} a.

(** The exceptions the modelled functions raise. *)
Inductive exn : Type :=
| KeyError (key : string)
| IndexError
| TypeError
| AttributeError
| UnboundLocalError (var : string)
| FileNotFoundError (msg : string)
| Exception (msg : string).

(** [bool(v)] *)
Definition truthy (v : pyval) : bool :=
  match v with
  | PNone => false
  | PBool b => b
  | PStr s => negb (s =? "")
  end.

(** [bool(s)] for a [str] *)
Definition str_truthy (s : string) : bool := negb (s =? "").

(** [str(v)], as [format] and f-strings print a value *)
Definition py_str (v : pyval) : string :=
  match v with
  | PNone => "None"
  | PBool true => "True"
  | PBool false => "False"
  | PStr s => s
  end.

(** dict lookup by key *)
Fixpoint lookup {A : Type} (k : string) (d : list (string * A)) : option A :=
  match d with
  | [] => None
  | (k', v) :: d' => if k' =? k then Some v else lookup k d'
  end.

(** [d.get(k, default)] *)
Definition dict_get (d : list (string * pyval)) (k : string) (default : pyval) : pyval :=
  match lookup k d with
  | Some v => v
  | None => default
  end.

(** ** [str] methods *)

(** [c.isspace()] on the code points below 256 *)
Definition isspace (c : ascii) : bool :=
  let n := nat_of_ascii c in
  (((9 <=? n) && (n <=? 13)) || ((28 <=? n) && (n <=? 32)) || (n =? 133) || (n =? 160))%nat.

Fixpoint lstrip (s : string) : string :=
  match s with
  | EmptyString => EmptyString
  | String c s' => if isspace c then lstrip s' else s
  end.

Fixpoint rstrip (s : string) : string :=
  match s with
  | EmptyString => EmptyString
  | String c s' =>
      match rstrip s' with
      | EmptyString => if isspace c then EmptyString else String c EmptyString
      | r => String c r
      end
  end.

(** [s.strip()] *)
Definition strip (s : string) : string := rstrip (lstrip s).

(** [s.split(sep=c, maxsplit=1)] for a one-character separator: one piece
    when [c] does not occur, otherwise the text before and after its first
    occurrence. *)
Fixpoint split1 (c : ascii) (s : string) : list string :=
  match s with
  | EmptyString => [EmptyString]
  | String a s' =>
      if Ascii.eqb a c then [EmptyString; s']
      else match split1 c s' with
           | x :: rest => String a x :: rest
           | [] => []
           end
  end.

(** [s.startswith(p)] *)
Definition startswith (s p : string) : bool := String.prefix p s.

(** [s.endswith(p)] *)
Fixpoint endswith (s p : string) : bool :=
  (s =? p) ||
  match s with
  | EmptyString => false
  | String _ s' => endswith s' p
  end.

(** ** [validate_recipe_config] *)

(** The top-level config document, a mapping: the [mirror] section is
    absent, null or a mapping whose values are null, booleans or strings (a
    mirror section that is a scalar or a list is not modelled); [system],
    when present, is a string.  The other keys ([store], [spack],
    [modules]) are not read here. *)
Record RawConfig : Type := {
  cfg_mirror : entry (list (string * pyval));
  cfg_system : option string
}.

Section Validate.

(** [os.path.isfile] of the file system the tool runs on, at a path (a
    [str]) or at an open file descriptor ([True] and [False] are the
    integers 1 and 0). *)
Variable isfile : pyval -> bool.

(** [os.path.isfile(p)] for a value read from the document: [None] is not
    a path. *)
Definition path_isfile (p : pyval) : exn + bool :=
  match p with
  | PNone => inl TypeError
  | _ => inr (isfile p)
  end.

(** Lines 61-67: the mirror check.  Returns the config as it is after the
    block and the local [p], which is bound only when a key was read. *)
Definition validate_mirror (config : RawConfig) : exn + (RawConfig * option pyval) :=
  match cfg_mirror config with
  | Val m =>
      match lookup "key" m with
      | Some p =>
          match path_isfile p with
          | inl e => inl e
          | inr true => inr (config, Some p)
          | inr false =>
              inl (FileNotFoundError ("The key file '" ++ py_str p ++ "' does not exist"))
          end
      | None => inr (config, None)
      end
  | PyNone => inl TypeError
  | Missing => inr ({| cfg_mirror := PyNone; cfg_system := cfg_system config |}, None)
  end.

(** Lines 68-74: the system check. *)
Definition validate_system (config : RawConfig) (p : option pyval) : exn + RawConfig :=
  match cfg_system config with
  | Some system =>
      if negb (existsb (String.eqb system) ["hohgant"; "balfrin"])
      then inl (FileNotFoundError
                  ("The  system '" ++ system ++ "' must be one of hohgant or balfrin"))
      else inr config
  | None =>
      match p with
      | Some p => inl (FileNotFoundError ("The  '" ++ py_str p ++ "' does not exist"))
      | None => inl (UnboundLocalError "p")
      end
  end.

Definition validate_recipe_config (config : RawConfig) : exn + RawConfig :=
  match validate_mirror config with
  | inl e => inl e
  | inr (config', p) => validate_system config' p
  end.

End Validate.

(** ** [Mirror] *)

Record Mirror : Type := {
  mirror_key : pyval;
  mirror_source : option string
}.

(** [bool(d)] for a dict: a dict is truthy when it has a key. *)
Definition dict_truthy {A : Type} (d : list (string * A)) : bool :=
  match d with
  | [] => false
  | _ :: _ => true
  end.

(** [Mirror.__init__(config, source)]: [config] is [None] or a mapping. *)
Definition Mirror_init (config : option (list (string * pyval))) (source : option string)
  : Mirror :=
  match config with
  | Some d =>
      if dict_truthy d then
        let enabled := dict_get d "enable" (PBool true) in
        let key := dict_get d "key" PNone in
        {| mirror_source := if negb (truthy enabled) then None else source;
           mirror_key := key |}
      else {| mirror_source := None; mirror_key := PNone |}
  | None => {| mirror_source := None; mirror_key := PNone |}
  end.

(** ** [Recipe.generate_package_specs] *)

(** [Recipe.valid_mpi_specs]: implementation name to
    (default version, build options). *)
Definition valid_mpi_specs : list (string * (option string * option string)) :=
  [ ("cray-mpich-binary", (None, None));
    ("mpich", (Some "4.1rc2", Some "device=ch4 netmod=ofi +slurm"));
    ("mvapich2", (Some "3.0a",
                  Some "+xpmem fabrics=ch4ofi ch4_max_vcis=4 process_managers=slurm")) ].

(** One package set of [packages.yaml]: a dict whose keys [specs], [mpi]
    and [gpu] may be missing or hold [None]; otherwise [specs] holds a list
    of strings, [mpi] a string and [gpu] a scalar.  A set without a body
    ([None] in place of the dict) and an [mpi] or [specs] of another type
    are not modelled. *)
Record PackageSet : Type := {
  ps_specs : entry (list string);
  ps_mpi : entry string;
  ps_gpu : entry pyval
}.

(** The [packages] mapping: set name to package set, in document order.
    Each set is an object of its own, with a specs list of its own. *)
Definition Packages : Type := list (string * PackageSet).

(** Lines 185-192, the body of the first loop: the missing fields are
    written into the set. *)
Definition normalize (config : PackageSet) : PackageSet :=
  {| ps_specs := match ps_specs config with
                 | Missing | PyNone => Val []
                 | Val l => Val l
                 end;
     ps_mpi := match ps_mpi config with
               | Missing => PyNone
               | e => e
               end;
     ps_gpu := match ps_gpu config with
               | Missing => PyNone
               | e => e
               end |}.

(** Lines 198-202: [mpi.strip().split(sep='@', maxsplit=1)] unpacked into
    two names; the unpacking raises [ValueError] unless there are exactly
    two pieces, and the handler takes the whole string as the name. *)
Definition parse_mpi (mpi : string) : string * option string :=
  match split1 "@" (strip mpi) with
  | [mpi_impl; mpi_ver] => (mpi_impl, Some mpi_ver)
  | _ => (strip mpi, None)
  end.

(** Lines 206-209: the version clause. *)
Definition version_opt (mpi_ver default_ver : option string) : string :=
  match mpi_ver with
  | Some v =>
      if str_truthy v then "@" ++ v
      else match default_ver with
           | Some d => if str_truthy d then "@" ++ d else ""
           | None => ""
           end
  | None =>
      match default_ver with
      | Some d => if str_truthy d then "@" ++ d else ""
      | None => ""
      end
  end.

(** [options or ''] *)
Definition options_or_empty (options : option string) : string :=
  match options with
  | Some o => if str_truthy o then o else ""
  | None => ""
  end.

(** Line 211: the composed spec. *)
Definition compose_spec (mpi_impl version_clause : string) (options : option string) : string :=
  strip (mpi_impl ++ version_clause ++ " " ++ options_or_empty options).

(** [bool(config["gpu"])] *)
Definition gpu_truthy (gpu : entry pyval) : bool :=
  match gpu with
  | Val v => truthy v
  | _ => false
  end.

(** Lines 199-219: the spec an [mpi] string stands for, or the exception.
    [gpu] is what the set holds under that key. *)
Definition mpi_spec (mpi : string) (gpu : entry pyval) : exn + string :=
  let (mpi_impl, mpi_ver) := parse_mpi mpi in
  match lookup mpi_impl valid_mpi_specs with
  | Some (default_ver, options) =>
      let spec := compose_spec mpi_impl (version_opt mpi_ver default_ver) options in
      match gpu with
      | Missing => inl (KeyError "gpu")
      | _ =>
          if gpu_truthy gpu && negb (mpi_impl =? "cray-mpich-binary")
          then inr (spec ++ " cuda_arch=80")
          else inr spec
      end
  | None => inl (Exception ("Unsupported mpi: " ++ mpi_impl))
  end.

(** [l.append(x)] *)
Definition list_append {A : Type} (l : list A) (x : A) : list A := (l ++ [x])%list.

(** [packages[name]["specs"].append(spec)] *)
Definition append_spec (config : PackageSet) (spec : string) : exn + PackageSet :=
  match ps_specs config with
  | Val l => inr {| ps_specs := Val (list_append l spec);
                    ps_mpi := ps_mpi config;
                    ps_gpu := ps_gpu config |}
  | PyNone => inl AttributeError
  | Missing => inl (KeyError "specs")
  end.

(** Lines 196-219, the body of the second loop on one set: the set as it is
    after the body, or the exception, which leaves the set as it was. *)
Definition expand_set (config : PackageSet) : exn + PackageSet :=
  match ps_mpi config with
  | Missing => inl (KeyError "mpi")
  | PyNone => inr config
  | Val mpi =>
      if str_truthy mpi then
        match mpi_spec mpi (ps_gpu config) with
        | inl e => inl e
        | inr spec => append_spec config spec
        end
      else inr config
  end.

(** The second loop: the sets are expanded in order and in place; an
    exception leaves the sets already visited expanded and the others as
    they were. *)
Fixpoint expand_loop (items : Packages) : Packages * option exn :=
  match items with
  | [] => ([], None)
  | (name, config) :: rest =>
      match expand_set config with
      | inl e => ((name, config) :: rest, Some e)
      | inr config' =>
          let (rest', r) := expand_loop rest in
          ((name, config') :: rest', r)
      end
  end.

(** The fields of a [Recipe] that resolution assigns.  [compilers] is a
    class attribute and starts as an empty dict; [packages] exists only
    once [generate_package_specs] has assigned it. *)
Record PackagesCfg : Type := {
  external : list string;
  variants : list (string * string)
}.

(** A resolved compiler stage.  [st_packages] is [None] where the source
    stores [False]; [st_requires] is [None] where the stage has no such key. *)
Record Stage : Type := {
  st_packages : option PackagesCfg;
  st_specs : list string;
  st_requires : option string
}.

Definition Compilers : Type := list (string * Stage).

Record Recipe : Type := {
  self_compilers : Compilers;
  self_packages : option Packages
}.

(** Lines 184-192, the first loop: every set is normalised in place. *)
Definition normalize_loop (packages : Packages) : Packages :=
  map (fun '(name, config) => (name, normalize config)) packages.

(** [Recipe.generate_package_specs(self, raw)].  [packages] is another name
    of [raw], so both loops write into the caller's document: the result is
    that document after the call, and either the exception or [self] with
    [packages] bound to the same document. *)
Definition generate_package_specs (self : Recipe) (raw : Packages)
  : Packages * (exn + Recipe) :=
  let packages := normalize_loop raw in
  match expand_loop packages with
  | (packages', Some e) => (packages', inl e)
  | (packages', None) =>
      (packages', inr {| self_compilers := self_compilers self;
                         self_packages := Some packages' |})
  end.

(** ** [Recipe.generate_compiler_specs] *)

(** One stage of [compilers.yaml]: a dict whose keys [specs] and [requires]
    may be missing; otherwise [specs] holds a list of strings and [requires]
    a string.  A key that holds [None] or a value of another type is not
    modelled. *)
Record RawStage : Type := {
  raw_specs : option (list string);
  raw_requires : option string
}.

(** The [compilers] mapping of [compilers.yaml]: each of the three stages
    is absent or a dict. *)
Record RawCompilers : Type := {
  raw_bootstrap : option RawStage;
  raw_gcc : option RawStage;
  raw_llvm : option RawStage
}.

(** [d[k]] on a key that may be missing *)
Definition getitem {A : Type} (k : string) (v : option A) : exn + A :=
  match v with
  | Some a => inr a
  | None => inl (KeyError k)
  end.

(** [l[0]] *)
Definition first_item {A : Type} (l : list A) : exn + A :=
  match l with
  | x :: _ => inr x
  | [] => inl IndexError
  end.

Definition external_tools : list string :=
  ["perl"; "m4"; "autoconf"; "automake"; "libtool"; "gawk"; "python"; "texinfo"; "gawk"].

(** Lines 234-244 *)
Definition bootstrap_packages : PackagesCfg :=
  {| external := external_tools;
     variants := [ ("gcc", "[build_type=Release ~bootstrap +strip]");
                   ("mpc", "[libs=static]");
                   ("gmp", "[libs=static]");
                   ("mpfr", "[libs=static]");
                   ("zstd", "[libs=static]");
                   ("zlib", "[~shared]") ] |}.

(** Lines 250-260 *)
Definition gcc_packages : PackagesCfg :=
  {| external := external_tools;
     variants := [ ("gcc", "[build_type=Release +profiled +strip]");
                   ("mpc", "[libs=static]");
                   ("gmp", "[libs=static]");
                   ("mpfr", "[libs=static]");
                   ("zstd", "[libs=static]");
                   ("zlib", "[~shared]") ] |}.

(** Lines 269-273, the body of the loop over the declared llvm specs:
    two independent tests, each appending to [llvm["specs"]]. *)
Definition llvm_step (acc : list string) (spec : string) : list string :=
  let acc1 := if startswith spec "nvhpc"
              then list_append acc (spec ++ "~mpi~blas~lapack") else acc in
  if startswith spec "llvm"
  then list_append acc1 (spec ++ " +clang targets=x86 ~gold ^ninja@kitware") else acc1.

(** Lines 267-273 *)
Definition llvm_specs (declared : list string) : list string :=
  fold_left llvm_step declared [].

(** An exception-propagating bind for the straight-line code below. *)
Definition bind {A B : Type} (m : exn + A) (k : A -> exn + B) : exn + B :=
  match m with
  | inl e => inl e
  | inr a => k a
  end.

Notation "x <- m ;; k" := (bind m (fun x => k))
  (at level 61, m at next level, right associativity).

(** Lines 264-276: the llvm stage, when the raw input has one. *)
Definition resolve_llvm (raw : RawCompilers) : exn + list (string * Stage) :=
  match raw_llvm raw with
  | None => inr []
  | Some llvm =>
      declared <- getitem "specs" (raw_specs llvm) ;;
      requires <- getitem "requires" (raw_requires llvm) ;;
      inr [("llvm", {| st_packages := None;
                       st_specs := llvm_specs declared;
                       st_requires := Some requires |})]
  end.

(** Lines 231-276: the [compilers] dict that the method builds. *)
Definition resolve_compilers (raw : RawCompilers) : exn + Compilers :=
  bootstrap_raw <- getitem "bootstrap" (raw_bootstrap raw) ;;
  bootstrap_specs <- getitem "specs" (raw_specs bootstrap_raw) ;;
  bootstrap_spec <- first_item bootstrap_specs ;;
  let bootstrap :=
    {| st_packages := Some bootstrap_packages;
       st_specs := [bootstrap_spec ++ " languages=c,c++";
                    "squashfs default_compression=zstd"];
       st_requires := None |} in
  gcc_raw <- getitem "gcc" (raw_gcc raw) ;;
  gcc_specs <- getitem "specs" (raw_specs gcc_raw) ;;
  let gcc :=
    {| st_packages := Some gcc_packages;
       st_specs := gcc_specs;
       st_requires := Some bootstrap_spec |} in
  llvm <- resolve_llvm raw ;;
  inr ([("bootstrap", bootstrap); ("gcc", gcc)] ++ llvm)%list.

(** [Recipe.generate_compiler_specs(self, raw)]: [raw] is only read; the
    last statement binds [self.compilers]. *)
Definition generate_compiler_specs (self : Recipe) (raw : RawCompilers) : exn + Recipe :=
  compilers <- resolve_compilers raw ;;
  inr {| self_compilers := compilers; self_packages := self_packages self |}.

(** ** Paths *)

(** [os.path.isabs(s)] on a POSIX system *)
Definition isabs (s : string) : bool := startswith s "/".

(** [os.path.join(a, b)] on a POSIX system: an absolute [b] replaces [a];
    otherwise [b] is added after a separator, which is left out when [a] is
    empty or already ends with one. *)
Definition path_join (a b : string) : string :=
  if startswith b "/" then b
  else if negb (str_truthy a) || endswith a "/" then a ++ b
  else a ++ "/" ++ b.

(** Lines 111-113 and 340-342: a relative path is taken from the current
    directory; [cwd] is [os.path.abspath(os.path.curdir)]. *)
Definition resolve_path (cwd path : string) : string :=
  if negb (isabs path) then path_join cwd path else path.

(** ** [Recipe.__init__] and what it hands to the emitter *)

(** The command line ([make_argparser]). *)
Record Args : Type := {
  args_build : string;
  args_recipe : string;
  args_debug : bool
}.

(** A [Recipe] once constructed: the fields that resolution assigns
    ([obj_resolved]) and the ones that [__init__] assigns itself. *)
Record RecipeObject : Type := {
  obj_path : string;
  obj_root : string;
  obj_resolved : Recipe;
  obj_config : RawConfig;
  obj_modules : string;
  obj_mirror : Mirror
}.

(** [Recipe.configs_path], lines 281-288, for the [system] of the config. *)
Definition configs_path (root system : string) : string :=
  path_join (path_join (path_join root "share") "cluster-config") system.

(** [self.config['mirror']], which [validate_recipe_config] has made
    present. *)
Definition config_mirror (config : RawConfig) : exn + option (list (string * pyval)) :=
  match cfg_mirror config with
  | Missing => inl (KeyError "mirror")
  | PyNone => inr None
  | Val d => inr (Some d)
  end.

(** [self.mirror.source and self.mirror.key], lines 300 and 322: the value
    that the makefile templates test. *)
Definition push_to_cache (mirror : Mirror) : pyval :=
  match mirror_source mirror with
  | None => PNone
  | Some source => if str_truthy source then mirror_key mirror else PStr source
  end.

Section RecipeInit.

(** The file system the tool runs on and what the YAML loader returns for
    the three documents: [raw['compilers']] and [raw['packages']], [None]
    when the document has no such key, and the config document.  A file
    that [os.path.isfile] has found is taken to open and to load as a
    mapping of the types above: the errors of [open] and of [yaml.load],
    and documents of another shape, are not modelled. *)
Variable isdir : string -> bool.
Variable isfile : pyval -> bool.
Variable load_compilers : string -> option RawCompilers.
Variable load_packages : string -> option Packages.
Variable load_config : string -> RawConfig.

(** [os.path.abspath(os.path.curdir)] and the installation root of the
    tool, [self.root]. *)
Variable cwd : string.
Variable root : string.

(** Lines 158-164: the mirrors file of the recipe, or else the one of the
    system configuration, or else [None].  [configs_path] is read only in
    the second case. *)
Definition select_mirrors_source (path : string) (config : RawConfig)
  : exn + option string :=
  let mirrors_path := path_join path "mirrors.yaml" in
  if isfile (PStr mirrors_path) then inr (Some mirrors_path)
  else
    system <- getitem "system" (cfg_system config) ;;
    let mirrors_path := path_join (configs_path root system) "mirrors.yaml" in
    inr (if isfile (PStr mirrors_path) then Some mirrors_path else None).

(** Lines 150-156: the modules file of the recipe, or else the default one
    of the spack checkout in the build path, which is not looked at. *)
Definition select_modules (path build : string) : string :=
  let modules_path := path_join path "modules.yaml" in
  if negb (isfile (PStr modules_path))
  then path_join build "spack/etc/spack/defaults/modules.yaml"
  else modules_path.

(** [Recipe.__init__(self, args)], lines 109-166 (logging is not
    modelled).  The class attribute [compilers] starts as an empty dict. *)
Definition Recipe_init (args : Args) : exn + RecipeObject :=
  let path := resolve_path cwd (args_recipe args) in
  if negb (isdir path)
  then inl (FileNotFoundError ("The recipe path '" ++ path ++ "' does not exist"))
  else
  let compiler_path := path_join path "compilers.yaml" in
  if negb (isfile (PStr compiler_path))
  then inl (FileNotFoundError
              ("The recipe path '" ++ compiler_path ++ "' does not contain compilers.yaml"))
  else
  raw_compilers <- getitem "compilers" (load_compilers compiler_path) ;;
  self1 <- generate_compiler_specs
             {| self_compilers := []; self_packages := None |} raw_compilers ;;
  let packages_path := path_join path "packages.yaml" in
  if negb (isfile (PStr packages_path))
  then inl (FileNotFoundError
              ("The recipe path '" ++ packages_path ++ "' does not contain packages.yaml"))
  else
  raw_packages <- getitem "packages" (load_packages packages_path) ;;
  self2 <- snd (generate_package_specs self1 raw_packages) ;;
  let config_path := path_join path "config.yaml" in
  if negb (isfile (PStr config_path))
  then inl (FileNotFoundError
              ("The recipe path '" ++ config_path ++ "' does not contain compilers.yaml"))
  else
  config <- validate_recipe_config isfile (load_config config_path) ;;
  let modules := select_modules path (args_build args) in
  mirrors_source <- select_mirrors_source path config ;;
  mirror_config <- config_mirror config ;;
  inr {| obj_path := path;
         obj_root := root;
         obj_resolved := self2;
         obj_config := config;
         obj_modules := modules;
         obj_mirror := Mirror_init mirror_config mirrors_source |}.

End RecipeInit.

(** ** [Build] *)

(** The exception of [Build.__init__]. *)
Inductive os_error : Type :=
| IOError (msg : string).

Record Build : Type := {
  build_path : string;
  build_root : string
}.

(** [Build.__init__(self, args)], lines 339-350; [exists_] and [isdir] are
    [os.path.exists] and [os.path.isdir]. *)
Definition Build_init (exists_ isdir : string -> bool) (cwd root : string) (args : Args)
  : os_error + Build :=
  let path := resolve_path cwd (args_build args) in
  if exists_ path && negb (isdir path)
  then inl (IOError "build path is not a directory")
  else inr {| build_path := path; build_root := root |}.

(** Lines 425-437 of [Build.generate]: the loop over the listing of the
    system configuration directory, as the [shutil.copy(src, dst)] calls it
    makes, in order. *)
Fixpoint copy_system_configs (isfile : pyval -> bool)
         (system_configs_path config_path : string) (listing : list string)
  : list (string * string) :=
  match listing with
  | [] => []
  | f :: rest =>
      if existsb (String.eqb f) ["mirrors.yaml"]
      then copy_system_configs isfile system_configs_path config_path rest
      else
        let src := path_join system_configs_path f in
        let dst := path_join config_path f in
        if isfile (PStr src)
        then (src, dst) :: copy_system_configs isfile system_configs_path config_path rest
        else copy_system_configs isfile system_configs_path config_path rest
  end.

(** Lines 420-441 of [Build.generate]: the copies into the [config]
    directory of the build path; [listing] is what [os.listdir] returns for
    the system configuration directory. *)
Definition generate_config_copies (isfile : pyval -> bool) (self : Build)
           (system_configs_path : string) (mirror : Mirror) (listing : list string)
  : list (string * string) :=
  let config_path := path_join (build_path self) "config" in
  let copies := copy_system_configs isfile system_configs_path config_path listing in
  match mirror_source mirror with
  | Some source =>
      if str_truthy source
      then list_append copies (source, path_join config_path "mirrors.yaml")
      else copies
  | None => copies
  end.

(** Lines 500-501 of [Build.generate]: the compilers named in the makefile
    that generates the spack configuration. *)
Definition all_compilers (compilers : Compilers) : list string :=
  map fst compilers.

Definition release_compilers (all : list string) : list string :=
  filter (fun x => negb (x =? "bootstrap")) all.

(** ** Vocabulary of the properties *)

(** Every character of [s] passes [f]. *)
Fixpoint string_forallb (f : ascii -> bool) (s : string) : bool :=
  match s with
  | EmptyString => true
  | String c s' => f c && string_forallb f s'
  end.

(** A character that is neither whitespace nor the version separator. *)
Definition plain_char (c : ascii) : bool :=
  negb (isspace c) && negb (Ascii.eqb c "@").

(** A name without whitespace and without the version separator. *)
Definition plain_name (s : string) : bool :=
  negb (s =? "") && string_forallb plain_char s.

(** The declared specs of a set: none when the key is missing or [None]. *)
Definition specs_of (config : PackageSet) : list string :=
  match ps_specs config with
  | Val l => l
  | _ => []
  end.

(** The set [config] once normalised and with [spec] appended to its specs. *)
Definition with_spec (config : PackageSet) (spec : string) : PackageSet :=
  {| ps_specs := Val (list_append (specs_of config) spec);
     ps_mpi := ps_mpi (normalize config);
     ps_gpu := ps_gpu (normalize config) |}.

(** The clause that line 214 appends, or nothing. *)
Definition cuda_clause (mpi_impl : string) (gpu : entry pyval) : string :=
  if gpu_truthy gpu && negb (mpi_impl =? "cray-mpich-binary") then " cuda_arch=80" else "".

(** The [mpi] field of the set is truthy: the second loop expands it. *)
Definition mpi_is_set (config : PackageSet) : bool :=
  match ps_mpi config with
  | Val mpi => str_truthy mpi
  | _ => false
  end.

(** The implementation name of a set whose mpi names an implementation
    that [valid_mpi_specs] does not have. *)
Definition unsupported_mpi (config : PackageSet) : option string :=
  match ps_mpi config with
  | Val mpi =>
      if str_truthy mpi then
        match lookup (fst (parse_mpi mpi)) valid_mpi_specs with
        | Some _ => None
        | None => Some (fst (parse_mpi mpi))
        end
      else None
  | _ => None
  end.

(** A set as the two loops leave it when the second one passes it. *)
Definition expanded (config : PackageSet) : PackageSet :=
  match expand_set (normalize config) with
  | inr config' => config'
  | inl _ => normalize config
  end.

(** A document as the two loops leave it when the second one passes every
    set. *)
Definition expanded_all (packages : Packages) : Packages :=
  map (fun '(name, config) => (name, expanded config)) packages.

(** No set of the document names an implementation outside the table. *)
Definition all_supported (packages : Packages) : Prop :=
  Forall (fun nc => unsupported_mpi (snd nc) = None) packages.

(** The names of a document with the specs of each set. *)
Definition name_specs (packages : Packages) : list (string * list string) :=
  map (fun nc => (fst nc, specs_of (snd nc))) packages.

(** What one declared llvm spec contributes to the resolved llvm specs. *)
Definition llvm_resolved (spec : string) : list string :=
  List.app
    (if startswith spec "nvhpc" then [spec ++ "~mpi~blas~lapack"] else [])
    (if startswith spec "llvm" then [spec ++ " +clang targets=x86 ~gold ^ninja@kitware"]
     else []).

(** The llvm stage of the raw input, if any, has both keys that are read. *)
Definition llvm_ok (raw : RawCompilers) : bool :=
  match raw_llvm raw with
  | None => true
  | Some llvm =>
      match raw_specs llvm, raw_requires llvm with
      | Some _, Some _ => true
      | _, _ => false
      end
  end.

(** The raw compilers document with the bootstrap stage declaring [specs]. *)
Definition with_bootstrap_specs (raw : RawCompilers) (specs : list string) : RawCompilers :=
  {| raw_bootstrap := Some {| raw_specs := Some specs;
                              raw_requires := match raw_bootstrap raw with
                                              | Some b => raw_requires b
                                              | None => None
                                              end |};
     raw_gcc := raw_gcc raw;
     raw_llvm := raw_llvm raw |}.

(** A declared llvm spec that the loop keeps. *)
Definition llvm_kept (spec : string) : bool :=
  startswith spec "nvhpc" || startswith spec "llvm".

(** Example documents, in the shape of the recipes the tool reads. *)
Definition example_recipe : Recipe :=
  {| self_compilers := []; self_packages := None |}.

Definition example_compilers : RawCompilers :=
  {| raw_bootstrap := Some {| raw_specs := Some ["gcc@11"; "binutils@2.38"];
                              raw_requires := None |};
     raw_gcc := Some {| raw_specs := Some ["gcc@11.3"]; raw_requires := None |};
     raw_llvm := Some {| raw_specs := Some ["nvhpc@22.7"; "clang@14"; "llvm@14"];
                         raw_requires := Some "gcc@11.3" |} |}.

Definition example_packages : Packages :=
  [("tools", {| ps_specs := Val ["cmake"]; ps_mpi := Missing; ps_gpu := Missing |});
   ("prgenv", {| ps_specs := Val ["hdf5 +mpi"]; ps_mpi := Val "mpich";
                 ps_gpu := Val (PStr "nvidia") |})].

(** The value of a call that returned, [default] for one that raised. *)
Definition returned {A : Type} (default : A) (r : exn + A) : A :=
  match r with
  | inr a => a
  | inl _ => default
  end.

(** The three keys that the second loop reads are present: [specs] holds a
    list, [mpi] and [gpu] hold [None] or a value. *)
Definition keys_present (config : PackageSet) : bool :=
  match ps_specs config, ps_mpi config, ps_gpu config with
  | Val _, (PyNone | Val _), (PyNone | Val _) => true
  | _, _, _ => false
  end.

(** What a key holds once it is present: the value it held, or [None] when
    it was missing or held [None]. *)
Definition kept_or_none {A : Type} (e : entry A) : entry A :=
  match e with
  | Val a => Val a
  | Missing | PyNone => PyNone
  end.

(** Set [after] is set [before] with the same mpi and gpu values, [None]
    where there was none, and with the declared specs followed by at most
    one more. *)
Definition set_extends (before after : PackageSet) : Prop :=
  ps_mpi after = kept_or_none (ps_mpi before) /\
  ps_gpu after = kept_or_none (ps_gpu before) /\
  (ps_specs after = Val (specs_of before) \/
   exists spec, ps_specs after = Val (specs_of before ++ [spec])%list).

(** The raw compilers input has everything the method reads: a bootstrap
    stage that declares at least one spec, a gcc stage with specs, and an
    llvm stage, if any, with specs and requires. *)
Definition compilers_wf (raw : RawCompilers) : bool :=
  match raw_bootstrap raw, raw_gcc raw with
  | Some b, Some g =>
      match raw_specs b, raw_specs g with
      | Some (_ :: _), Some _ => llvm_ok raw
      | _, _ => false
      end
  | _, _ => false
  end.

(** A kept llvm spec with its suffix. *)
Definition llvm_suffixed (spec : string) : string :=
  if startswith spec "nvhpc" then spec ++ "~mpi~blas~lapack"
  else spec ++ " +clang targets=x86 ~gold ^ninja@kitware".

(** The mirror section passes the check of lines 61-67: there is none, or
    it is a mapping that has no key file or one that exists. *)
Definition mirror_valid (isfile : pyval -> bool) (config : RawConfig) : bool :=
  match cfg_mirror config with
  | Missing => true
  | PyNone => false
  | Val m =>
      match lookup "key" m with
      | None => true
      | Some PNone => false
      | Some p => isfile p
      end
  end.

(** The system is one of the supported ones. *)
Definition system_valid (config : RawConfig) : bool :=
  match cfg_system config with
  | Some system => (system =? "hohgant") || (system =? "balfrin")
  | None => false
  end.

(** The config with the [mirror] key that validation writes when there is
    none. *)
Definition with_mirror_key (config : RawConfig) : RawConfig :=
  {| cfg_mirror := match cfg_mirror config with
                   | Missing => PyNone
                   | m => m
                   end;
     cfg_system := cfg_system config |}.

(** The separator that [path_join] puts after [a]. *)
Definition path_sep (a : string) : string :=
  if negb (str_truthy a) || endswith a "/" then "" else "/".

(** An example file system and command line: a recipe directory with the
    three documents and no mirrors file, a system configuration with a
    mirrors file, and a key file. *)
Definition example_isdir (path : string) : bool := path =? "/work/recipe".

Definition example_isfile (path : pyval) : bool :=
  match path with
  | PStr s => existsb (String.eqb s)
                ["/work/recipe/compilers.yaml"; "/work/recipe/packages.yaml";
                 "/work/recipe/config.yaml"; "/keys/sign.key";
                 "/opt/sstool/share/cluster-config/hohgant/mirrors.yaml"]
  | _ => false
  end.

Definition example_config : RawConfig :=
  {| cfg_mirror := Val [("key", PStr "/keys/sign.key")]; cfg_system := Some "hohgant" |}.

Definition example_args : Args :=
  {| args_build := "build"; args_recipe := "recipe"; args_debug := false |}.

(** [Recipe(args)] on the example file system, from [/work]. *)
Definition example_Recipe_init (isfile : pyval -> bool) (config : RawConfig)
  : exn + RecipeObject :=
  Recipe_init example_isdir isfile (fun _ => Some example_compilers)
    (fun _ => Some example_packages) (fun _ => config) "/work" "/opt/sstool" example_args.

(** The recipe constructed on the example file system. *)
Definition example_object : RecipeObject :=
  returned {| obj_path := ""; obj_root := ""; obj_resolved := example_recipe;
              obj_config := example_config; obj_modules := "";
              obj_mirror := Mirror_init None None |}
           (example_Recipe_init example_isfile example_config).

(** The example file system without the config document. *)
Definition example_isfile_no_config (path : pyval) : bool :=
  match path with
  | PStr s => existsb (String.eqb s)
                ["/work/recipe/compilers.yaml"; "/work/recipe/packages.yaml"]
  | _ => false
  end.

(** * Properties *)

(** ** Strings *)

(** Takes [H : string_forallb plain_char (String c a) = true] apart into
    what it says of [c] and of [a]. *)
Ltac plain_head H Hspace Hsep Htail :=
  cbn [string_forallb] in H;
  apply andb_prop in H as [H Htail];
  unfold plain_char in H;
  apply andb_prop in H as [Hspace Hsep];
  apply negb_true_iff in Hspace;
  apply negb_true_iff in Hsep.

Lemma append_empty_r (s : string) : s ++ "" = s.
Proof.
  induction s as [|c s IH]; simpl; [reflexivity | now rewrite IH].
Qed.

Lemma str_truthy_true (s : string) : str_truthy s = true <-> s <> "".
Proof.
  unfold str_truthy. destruct s; simpl; split; intro H; congruence.
Qed.

Lemma rstrip_cons (c : ascii) (s : string) :
  isspace c = false -> rstrip (String c s) = String c (rstrip s).
Proof.
  intro Hc. simpl. rewrite Hc. now destruct (rstrip s).
Qed.

Lemma rstrip_cons_nonempty (c : ascii) (s : string) :
  rstrip s <> "" -> rstrip (String c s) = String c (rstrip s).
Proof.
  intro Hs. simpl. destruct (rstrip s); [congruence | reflexivity].
Qed.

Lemma rstrip_idempotent (s : string) : rstrip (rstrip s) = rstrip s.
Proof.
  induction s as [|c s IH]; [reflexivity|].
  destruct (isspace c) eqn:Hc.
  - simpl. rewrite Hc. destruct (rstrip s) as [|c' r] eqn:Hr; [reflexivity|].
    rewrite rstrip_cons_nonempty; rewrite IH; [reflexivity | discriminate].
  - rewrite (rstrip_cons _ _ Hc), (rstrip_cons _ _ Hc). now rewrite IH.
Qed.

Lemma lstrip_rstrip_head (c : ascii) (s : string) :
  isspace c = false -> lstrip (rstrip (String c s)) = rstrip (String c s).
Proof.
  intro Hc. rewrite (rstrip_cons _ _ Hc). simpl. now rewrite Hc.
Qed.

(** What [lstrip] returns is empty or starts with a character that is not
    whitespace. *)
Lemma lstrip_head (s : string) :
  lstrip s = "" \/ exists c t, lstrip s = String c t /\ isspace c = false.
Proof.
  induction s as [|c s IH]; simpl; [now left|].
  destruct (isspace c) eqn:Hc; [exact IH|].
  right. now exists c, s.
Qed.

(** [strip] returns a string with no whitespace left to strip. *)
Lemma strip_idempotent (s : string) : strip (strip s) = strip s.
Proof.
  unfold strip. destruct (lstrip_head s) as [H | (c & t & H & Hc)]; rewrite H.
  - reflexivity.
  - rewrite (lstrip_rstrip_head _ _ Hc). apply rstrip_idempotent.
Qed.

Lemma rstrip_plain_append (a b : string) :
  string_forallb plain_char a = true ->
  rstrip (a ++ String "@" b) = a ++ String "@" (rstrip b).
Proof.
  induction a as [|c a IH]; intro H.
  - now apply rstrip_cons.
  - plain_head H Hspace Hsep Htail.
    change (rstrip (String c (a ++ String "@" b)) = String c (a ++ String "@" (rstrip b))).
    rewrite (rstrip_cons _ _ Hspace). now rewrite IH.
Qed.

Lemma rstrip_plain (a : string) :
  string_forallb plain_char a = true -> rstrip a = a.
Proof.
  induction a as [|c a IH]; intro H; [reflexivity|].
  plain_head H Hspace Hsep Htail.
  rewrite (rstrip_cons _ _ Hspace). now rewrite IH.
Qed.

Lemma lstrip_plain (a b : string) :
  plain_name a = true -> lstrip (a ++ b) = a ++ b.
Proof.
  unfold plain_name. destruct a as [|c a]; [discriminate|].
  cbn [String.eqb negb andb]. intro H.
  plain_head H Hspace Hsep Htail.
  cbn [append lstrip]. now rewrite Hspace.
Qed.

Lemma split1_plain_sep (a b : string) :
  string_forallb plain_char a = true ->
  split1 "@" (a ++ String "@" b) = [a; b].
Proof.
  induction a as [|c a IH]; intro H; [reflexivity|].
  plain_head H Hspace Hsep Htail.
  cbn [append split1]. rewrite Hsep. now rewrite IH.
Qed.

Lemma split1_plain (a : string) :
  string_forallb plain_char a = true -> split1 "@" a = [a].
Proof.
  induction a as [|c a IH]; intro H; [reflexivity|].
  plain_head H Hspace Hsep Htail.
  cbn [split1]. rewrite Hsep. now rewrite IH.
Qed.

(** The raw string [impl@ver] parses into the name and the version with
    its trailing whitespace removed. *)
Lemma parse_mpi_versioned (impl ver : string) :
  plain_name impl = true ->
  parse_mpi (impl ++ "@" ++ ver) = (impl, Some (rstrip ver)).
Proof.
  intro Hp. unfold parse_mpi, strip.
  rewrite (lstrip_plain _ _ Hp).
  unfold plain_name in Hp. apply andb_prop in Hp as [_ Hp].
  change ("@" ++ ver) with (String "@" ver).
  rewrite (rstrip_plain_append _ _ Hp), (split1_plain_sep _ _ Hp).
  reflexivity.
Qed.

(** The raw string [impl] parses into the name and no version. *)
Lemma parse_mpi_bare (impl : string) :
  plain_name impl = true -> parse_mpi impl = (impl, None).
Proof.
  intro Hp. unfold parse_mpi, strip.
  assert (Hl : lstrip impl = impl).
  { pose proof (lstrip_plain impl "" Hp) as H. now rewrite append_empty_r in H. }
  rewrite Hl.
  unfold plain_name in Hp. apply andb_prop in Hp as [_ Hp].
  rewrite (rstrip_plain _ Hp), (split1_plain _ Hp).
  reflexivity.
Qed.

Lemma endswith_refl (s : string) : endswith s s = true.
Proof.
  destruct s as [|c s]; [reflexivity|].
  cbn [endswith]. now rewrite String.eqb_refl.
Qed.

Lemma endswith_append (a b : string) : endswith (a ++ b) b = true.
Proof.
  induction a as [|c a IH].
  - apply endswith_refl.
  - change (String c a ++ b) with (String c (a ++ b)).
    cbn [endswith]. rewrite IH. apply orb_true_r.
Qed.

Lemma prefix_append (p s t : string) :
  String.prefix p s = true -> String.prefix p (s ++ t) = true.
Proof.
  revert s. induction p as [|c p IH]; intros s H.
  { now destruct (s ++ t). }
  destruct s as [|d s]; simpl in *; [discriminate|].
  destruct (ascii_dec c d); [now apply IH | discriminate].
Qed.

(** ** The table of MPI implementations *)

Lemma valid_mpi_cases (impl : string) (d o : option string) :
  lookup impl valid_mpi_specs = Some (d, o) ->
  (impl = "cray-mpich-binary" /\ d = None /\ o = None) \/
  (impl = "mpich" /\ d = Some "4.1rc2" /\ o = Some "device=ch4 netmod=ofi +slurm") \/
  (impl = "mvapich2" /\ d = Some "3.0a" /\
   o = Some "+xpmem fabrics=ch4ofi ch4_max_vcis=4 process_managers=slurm").
Proof.
  unfold valid_mpi_specs, lookup.
  destruct ("cray-mpich-binary" =? impl) eqn:E1.
  { apply String.eqb_eq in E1. intro H. injection H as <- <-. now left. }
  destruct ("mpich" =? impl) eqn:E2.
  { apply String.eqb_eq in E2. intro H. injection H as <- <-. right. now left. }
  destruct ("mvapich2" =? impl) eqn:E3.
  { apply String.eqb_eq in E3. intro H. injection H as <- <-. right. now right. }
  discriminate.
Qed.

(** The names of the table have no whitespace and no [@]. *)
Lemma valid_mpi_plain (impl : string) (v : option string * option string) :
  lookup impl valid_mpi_specs = Some v -> plain_name impl = true.
Proof.
  destruct v as [d o]. intro H.
  destruct (valid_mpi_cases _ _ _ H) as [(-> & _) | [(-> & _) | (-> & _)]]; reflexivity.
Qed.

(** ** One package set *)

Lemma gpu_truthy_normalize (config : PackageSet) :
  gpu_truthy (ps_gpu (normalize config)) = gpu_truthy (ps_gpu config).
Proof.
  unfold normalize. simpl. now destruct (ps_gpu config).
Qed.

(** A set whose mpi parses to a name of the table gains exactly one spec:
    the composed one, followed by the cuda clause where it applies. *)
Lemma expand_set_supported (config : PackageSet) (mpi impl : string)
      (ver d o : option string) :
  ps_mpi config = Val mpi ->
  str_truthy mpi = true ->
  parse_mpi mpi = (impl, ver) ->
  lookup impl valid_mpi_specs = Some (d, o) ->
  expand_set (normalize config) =
  inr (with_spec config
         (compose_spec impl (version_opt ver d) o ++ cuda_clause impl (ps_gpu config))).
Proof.
  intros Hmpi Ht Hp Hl.
  unfold expand_set, with_spec, specs_of, cuda_clause, mpi_spec, append_spec.
  unfold normalize; cbn [ps_mpi ps_gpu ps_specs]. rewrite Hmpi, Ht, Hp, Hl.
  destruct (ps_gpu config) as [| |g]; cbn [gpu_truthy andb];
    destruct (ps_specs config) as [| |l];
    try (now rewrite append_empty_r).
  all: destruct (truthy g && negb (impl =? "cray-mpich-binary"));
    try rewrite append_empty_r; reflexivity.
Qed.

(** A set whose mpi is missing, [None] or empty is only normalised. *)
Lemma expand_set_no_mpi (config : PackageSet) :
  mpi_is_set config = false -> expand_set (normalize config) = inr (normalize config).
Proof.
  unfold mpi_is_set, expand_set, normalize; cbn [ps_mpi ps_gpu ps_specs].
  destruct (ps_mpi config) as [| |mpi]; try reflexivity.
  now intros ->.
Qed.

(** A set whose mpi names an implementation outside the table raises. *)
Lemma expand_set_unsupported (config : PackageSet) (impl : string) :
  unsupported_mpi config = Some impl ->
  expand_set (normalize config) = inl (Exception ("Unsupported mpi: " ++ impl)).
Proof.
  unfold unsupported_mpi, expand_set, normalize, mpi_spec; cbn [ps_mpi ps_gpu ps_specs].
  destruct (ps_mpi config) as [| |mpi]; try discriminate.
  destruct (str_truthy mpi); try discriminate.
  destruct (parse_mpi mpi) as [i v]; cbn [fst].
  destruct (lookup i valid_mpi_specs) as [[d o]|]; try discriminate.
  now intros [= ->].
Qed.

(** A supported set with an mpi: the mpi string parses to a name of the
    table. *)
Lemma supported_set_inv (config : PackageSet) :
  unsupported_mpi config = None ->
  mpi_is_set config = true ->
  exists mpi impl ver d o,
    ps_mpi config = Val mpi /\ str_truthy mpi = true /\
    parse_mpi mpi = (impl, ver) /\ lookup impl valid_mpi_specs = Some (d, o).
Proof.
  unfold unsupported_mpi, mpi_is_set. intros Hu Hs.
  destruct (ps_mpi config) as [| |mpi]; try discriminate.
  rewrite Hs in Hu.
  destruct (parse_mpi mpi) as [impl ver] eqn:Hp; cbn [fst] in Hu.
  destruct (lookup impl valid_mpi_specs) as [[d o]|] eqn:Hl; try discriminate.
  now exists mpi, impl, ver, d, o.
Qed.

(** An mpi string that parses to a name of the table is not empty. *)
Lemma supported_mpi_truthy (mpi impl : string) (ver : option string)
      (v : option string * option string) :
  parse_mpi mpi = (impl, ver) ->
  lookup impl valid_mpi_specs = Some v ->
  str_truthy mpi = true.
Proof.
  intros Hp Hl. destruct mpi as [|c mpi]; [|reflexivity].
  injection Hp as <- _. discriminate.
Qed.

(** Whatever the set, the second loop's body either raises the
    unsupported-mpi exception or returns. *)
Lemma expand_set_cases (config : PackageSet) :
  match unsupported_mpi config with
  | Some impl => expand_set (normalize config) = inl (Exception ("Unsupported mpi: " ++ impl))
  | None => exists config', expand_set (normalize config) = inr config'
  end.
Proof.
  destruct (unsupported_mpi config) as [impl|] eqn:Hu.
  - now apply expand_set_unsupported.
  - destruct (mpi_is_set config) eqn:Hs.
    + destruct (supported_set_inv _ Hu Hs) as (mpi & impl & ver & d & o & Hm & Ht & Hp & Hl).
      eexists. eapply expand_set_supported; eauto.
    + eexists. now apply expand_set_no_mpi.
Qed.

(** ** The package document *)

Lemma all_supported_dec (raw : Packages) :
  all_supported raw \/ Exists (fun nc => unsupported_mpi (snd nc) <> None) raw.
Proof.
  unfold all_supported.
  induction raw as [|[name config] raw IH]; [left; constructor|].
  destruct (unsupported_mpi config) as [impl|] eqn:Hu.
  - right. apply Exists_cons_hd. simpl. congruence.
  - destruct IH as [IH | IH].
    + left. now constructor.
    + right. now apply Exists_cons_tl.
Qed.

(** A document with an unsupported set splits at the first such set. *)
Lemma first_unsupported (raw : Packages) :
  Exists (fun nc => unsupported_mpi (snd nc) <> None) raw ->
  exists pre name config post impl,
    raw = (pre ++ (name, config) :: post)%list /\
    all_supported pre /\
    unsupported_mpi config = Some impl.
Proof.
  induction raw as [|[name config] raw IH]; intro H; [inversion H|].
  destruct (unsupported_mpi config) as [impl|] eqn:Hu.
  - exists [], name, config, raw, impl. repeat split; [constructor | assumption].
  - inversion H as [? ? H0 | ? ? H0]; subst.
    + simpl in H0. congruence.
    + destruct (IH H0) as (pre & n & c & post & impl & -> & Hpre & Hc).
      exists ((name, config) :: pre), n, c, post, impl.
      repeat split; [now constructor | assumption].
Qed.

(** The second loop passes a document without unsupported sets. *)
Lemma expand_loop_supported (raw : Packages) :
  all_supported raw ->
  expand_loop (normalize_loop raw) = (expanded_all raw, None).
Proof.
  induction 1 as [|[name config] raw Hc _ IH]; [reflexivity|].
  simpl in Hc. cbn [normalize_loop expanded_all map expand_loop].
  fold (normalize_loop raw). fold (expanded_all raw).
  pose proof (expand_set_cases config) as Hcase. rewrite Hc in Hcase.
  destruct Hcase as [config' Hcase]. unfold expanded. rewrite Hcase, IH.
  reflexivity.
Qed.

(** The second loop stops at the first unsupported set: the sets before it
    are expanded, that set and the sets after it are only normalised. *)
Lemma expand_loop_unsupported (pre post : Packages) (name : string)
      (config : PackageSet) (impl : string) :
  all_supported pre ->
  unsupported_mpi config = Some impl ->
  expand_loop (normalize_loop (pre ++ (name, config) :: post)%list) =
  ((expanded_all pre ++ normalize_loop ((name, config) :: post))%list,
   Some (Exception ("Unsupported mpi: " ++ impl))).
Proof.
  intros Hpre Hc.
  induction Hpre as [|[n c] pre Hn _ IH].
  - cbn [app normalize_loop expanded_all map expand_loop].
    now rewrite (expand_set_unsupported _ _ Hc).
  - simpl in Hn.
    change (((n, c) :: pre) ++ (name, config) :: post)%list
      with ((n, c) :: (pre ++ (name, config) :: post))%list.
    cbn [normalize_loop expanded_all map expand_loop app].
    fold (normalize_loop (pre ++ (name, config) :: post)%list).
    fold (expanded_all pre).
    pose proof (expand_set_cases c) as Hcase. rewrite Hn in Hcase.
    destruct Hcase as [c' Hcase]. unfold expanded at 1. rewrite Hcase, IH.
    reflexivity.
Qed.

(** A successful call: the document had no unsupported set, every set has
    been expanded in place, and [self.packages] is that document. *)
Lemma generate_package_specs_ok (self self' : Recipe) (raw raw' : Packages) :
  generate_package_specs self raw = (raw', inr self') ->
  all_supported raw /\ raw' = expanded_all raw /\
  self' = {| self_compilers := self_compilers self; self_packages := Some raw' |}.
Proof.
  unfold generate_package_specs. intro H.
  destruct (all_supported_dec raw) as [Hs | Hu].
  - rewrite (expand_loop_supported _ Hs) in H. injection H as <- <-. auto.
  - destruct (first_unsupported _ Hu) as (pre & n & c & post & impl & -> & Hpre & Hc).
    rewrite (expand_loop_unsupported _ post n _ _ Hpre Hc) in H. discriminate.
Qed.

(** ** The version clause *)

Lemma plain_name_truthy (impl rest : string) :
  plain_name impl = true -> str_truthy (impl ++ rest) = true.
Proof.
  unfold plain_name. now destruct impl.
Qed.

(** The default clause of a table entry: its default version after [@],
    or nothing when the entry has no default. *)
Lemma version_opt_default (impl : string) (d o : option string) :
  lookup impl valid_mpi_specs = Some (d, o) ->
  version_opt None d = match d with Some v => "@" ++ v | None => "" end.
Proof.
  intro H.
  destruct (valid_mpi_cases _ _ _ H) as [(_ & -> & _) | [(_ & -> & _) | (_ & -> & _)]];
    reflexivity.
Qed.

Lemma version_opt_given (v : string) (d : option string) :
  version_opt (Some v) d = if str_truthy v then "@" ++ v else version_opt None d.
Proof.
  reflexivity.
Qed.

(** C5 (as amended).  For a set whose mpi string is [impl@ver] with [impl] in
    the table, the version clause of the resolved spec is [@] followed by
    [ver] without its trailing whitespace when that is not empty, and the
    clause of the table's default version when it is empty; so a [ver] that
    is not empty and does not end in whitespace overrides the default.  When
    the mpi string is [impl] alone the clause is the default version after
    [@], or nothing when the table has no default. *)
Theorem mpi_version_clause (config : PackageSet) (impl ver : string)
        (d o : option string) :
  lookup impl valid_mpi_specs = Some (d, o) ->
  (ps_mpi config = Val (impl ++ "@" ++ ver) ->
   expand_set (normalize config) =
   inr (with_spec config
          (compose_spec impl
             (if str_truthy (rstrip ver) then "@" ++ rstrip ver
              else match d with Some v => "@" ++ v | None => "" end) o
           ++ cuda_clause impl (ps_gpu config)))) /\
  (ver <> "" -> rstrip ver = ver ->
   version_opt (snd (parse_mpi (impl ++ "@" ++ ver))) d = "@" ++ ver) /\
  (ps_mpi config = Val impl ->
   expand_set (normalize config) =
   inr (with_spec config
          (compose_spec impl (match d with Some v => "@" ++ v | None => "" end) o
           ++ cuda_clause impl (ps_gpu config)))).
Proof.
  intro Hl. pose proof (valid_mpi_plain _ _ Hl) as Hp.
  pose proof (version_opt_default _ _ _ Hl) as Hd.
  repeat split.
  - intro Hm.
    rewrite (expand_set_supported config _ impl (Some (rstrip ver)) d o Hm
               (plain_name_truthy _ _ Hp) (parse_mpi_versioned _ _ Hp) Hl).
    now rewrite version_opt_given, Hd.
  - intros Hne Hr. rewrite (parse_mpi_versioned _ _ Hp). cbn [snd].
    rewrite version_opt_given, Hr.
    apply str_truthy_true in Hne. now rewrite Hne.
  - intro Hm.
    assert (Ht : str_truthy impl = true).
    { rewrite <- (append_empty_r impl). now apply plain_name_truthy. }
    rewrite (expand_set_supported config _ impl None d o Hm Ht (parse_mpi_bare _ Hp) Hl).
    now rewrite Hd.
Qed.

Lemma mpi_version_clause_witness :
  expand_set (normalize {| ps_specs := Val ["hdf5"]; ps_mpi := Val "mpich@3.4.3";
                           ps_gpu := Missing |}) =
  inr {| ps_specs := Val ["hdf5"; "mpich@3.4.3 device=ch4 netmod=ofi +slurm"];
         ps_mpi := Val "mpich@3.4.3"; ps_gpu := PyNone |}.
Proof.
  exact (proj1 (mpi_version_clause
                  {| ps_specs := Val ["hdf5"]; ps_mpi := Val "mpich@3.4.3";
                     ps_gpu := Missing |}
                  "mpich" "3.4.3" (Some "4.1rc2") (Some "device=ch4 netmod=ofi +slurm")
                  eq_refl) eq_refl).
Defined.

(** C5, as the claim states it, fails on an empty version: [mpich@] takes
    the table's default version, not the clause [@]. *)
Lemma mpi_version_clause_counterexample :
  mpi_spec "mpich@" PyNone = inr "mpich@4.1rc2 device=ch4 netmod=ofi +slurm" /\
  version_opt (snd (parse_mpi ("mpich" ++ "@" ++ ""))) (Some "4.1rc2") = "@4.1rc2" /\
  ~ (forall impl ver d o,
        lookup impl valid_mpi_specs = Some (d, o) ->
        version_opt (snd (parse_mpi (impl ++ "@" ++ ver))) d = "@" ++ ver).
Proof.
  repeat split; try reflexivity.
  intro H.
  specialize (H "mpich" "" (Some "4.1rc2") (Some "device=ch4 netmod=ofi +slurm") eq_refl).
  vm_compute in H. discriminate.
Qed.

(** ** The gpu clause *)

Lemma rstrip_append_space (s : string) : rstrip (s ++ " ") = rstrip s.
Proof.
  induction s as [|c s IH]; [reflexivity|].
  change (String c s ++ " ") with (String c (s ++ " ")).
  cbn [rstrip]. now rewrite IH.
Qed.

(** The composed spec of [cray-mpich-binary], which has no options: the
    name alone, or the name and the version given. *)
Lemma compose_spec_cray (ver : option string) :
  compose_spec "cray-mpich-binary" (version_opt ver None) None =
  match ver with
  | Some v => if str_truthy v then "cray-mpich-binary@" ++ rstrip v
              else "cray-mpich-binary"
  | None => "cray-mpich-binary"
  end.
Proof.
  destruct ver as [v|]; [|reflexivity].
  unfold version_opt. destruct (str_truthy v); [|reflexivity].
  unfold compose_spec, options_or_empty, strip.
  change (lstrip ("cray-mpich-binary" ++ ("@" ++ v) ++ " " ++ ""))
    with ("cray-mpich-binary" ++ String "@" (v ++ " " ++ "")).
  rewrite rstrip_plain_append by reflexivity.
  change (v ++ " " ++ "") with (v ++ " ").
  now rewrite rstrip_append_space.
Qed.

(** C6 (as amended).  For a set with a truthy gpu field whose mpi string
    parses to an implementation of the table, the resolver appends
    [ cuda_arch=80] to the composed spec exactly when the implementation is
    not [cray-mpich-binary]: for the other implementations the resolved spec
    is the composed spec followed by that clause, and so ends with it; for
    [cray-mpich-binary] it is the composed spec with nothing appended, which
    is ["cray-mpich-binary"] itself when the mpi string gives no version.
    So the resolved spec ends with [ cuda_arch=80] exactly when the
    implementation is not [cray-mpich-binary] or the version text given in
    the mpi string itself ends with it. *)
Theorem cuda_clause_appended (config : PackageSet) (mpi impl : string)
        (ver d o : option string) :
  ps_mpi config = Val mpi ->
  parse_mpi mpi = (impl, ver) ->
  lookup impl valid_mpi_specs = Some (d, o) ->
  gpu_truthy (ps_gpu config) = true ->
  (impl <> "cray-mpich-binary" ->
   expand_set (normalize config) =
   inr (with_spec config (compose_spec impl (version_opt ver d) o ++ " cuda_arch=80")) /\
   endswith (compose_spec impl (version_opt ver d) o ++ " cuda_arch=80") " cuda_arch=80"
   = true) /\
  (impl = "cray-mpich-binary" ->
   expand_set (normalize config) =
   inr (with_spec config (compose_spec impl (version_opt ver d) o)) /\
   (ver = None ->
    compose_spec impl (version_opt ver d) o = "cray-mpich-binary" /\
    endswith (compose_spec impl (version_opt ver d) o) " cuda_arch=80" = false)) /\
  (endswith (compose_spec impl (version_opt ver d) o ++ cuda_clause impl (ps_gpu config))
            " cuda_arch=80" = true <->
   impl <> "cray-mpich-binary" \/
   exists v, ver = Some v /\ endswith (rstrip v) " cuda_arch=80" = true).
Proof.
  intros Hm Hp Hl Hg.
  pose proof (expand_set_supported config mpi impl ver d o Hm
                (supported_mpi_truthy _ _ _ _ Hp Hl) Hp Hl) as He.
  unfold cuda_clause in *. rewrite Hg in *. cbn [andb] in *.
  split; [|split].
  - intro Hne. apply String.eqb_neq in Hne. rewrite Hne in He. cbn [negb] in He.
    split; [exact He | apply endswith_append].
  - intros ->. rewrite String.eqb_refl in He. cbn [negb] in He.
    rewrite append_empty_r in He. split; [exact He|].
    intros ->. injection Hl as <- <-. split; reflexivity.
  - destruct (impl =? "cray-mpich-binary") eqn:Hi; cbn [negb].
    + apply String.eqb_eq in Hi. subst impl. injection Hl as <- <-.
      rewrite append_empty_r, compose_spec_cray.
      split.
      * intro Hend. right. destruct ver as [v|]; [|discriminate].
        destruct (str_truthy v); [|discriminate].
        exists v. split; [reflexivity | exact Hend].
      * intros [Hne | (v & -> & Hend)]; [congruence|].
        destruct (str_truthy v) eqn:Hv; [exact Hend|].
        unfold str_truthy in Hv. apply negb_false_iff, String.eqb_eq in Hv.
        subst v. discriminate.
    + apply String.eqb_neq in Hi. split; [now left | intros _; apply endswith_append].
Qed.

Lemma cuda_clause_appended_witness :
  expand_set (normalize {| ps_specs := Missing; ps_mpi := Val "mvapich2";
                           ps_gpu := Val (PStr "nvidia") |}) =
  inr {| ps_specs :=
           Val ["mvapich2@3.0a +xpmem fabrics=ch4ofi ch4_max_vcis=4 process_managers=slurm cuda_arch=80"];
         ps_mpi := Val "mvapich2"; ps_gpu := Val (PStr "nvidia") |}.
Proof.
  refine (proj1 (proj1 (cuda_clause_appended
                          {| ps_specs := Missing; ps_mpi := Val "mvapich2";
                             ps_gpu := Val (PStr "nvidia") |}
                          "mvapich2" "mvapich2" None (Some "3.0a")
                          (Some "+xpmem fabrics=ch4ofi ch4_max_vcis=4 process_managers=slurm")
                          eq_refl eq_refl eq_refl eq_refl) _)).
  discriminate.
Defined.

(** C6, as the claim states it, fails where the version text of a
    [cray-mpich-binary] string itself ends in the clause: the resolved spec
    then ends with [ cuda_arch=80] although nothing was appended. *)
Lemma cuda_clause_appended_counterexample :
  parse_mpi "cray-mpich-binary@8.1.18 cuda_arch=80" =
    ("cray-mpich-binary", Some "8.1.18 cuda_arch=80") /\
  lookup "cray-mpich-binary" valid_mpi_specs = Some (None, None) /\
  mpi_spec "cray-mpich-binary@8.1.18 cuda_arch=80" (Val (PBool true)) =
    inr "cray-mpich-binary@8.1.18 cuda_arch=80" /\
  endswith "cray-mpich-binary@8.1.18 cuda_arch=80" " cuda_arch=80" = true /\
  ~ (forall mpi gpu impl ver d o spec,
        gpu_truthy gpu = true ->
        parse_mpi mpi = (impl, ver) ->
        lookup impl valid_mpi_specs = Some (d, o) ->
        mpi_spec mpi gpu = inr spec ->
        (endswith spec " cuda_arch=80" = true <-> impl <> "cray-mpich-binary")).
Proof.
  repeat split; try reflexivity.
  intro H.
  specialize (H "cray-mpich-binary@8.1.18 cuda_arch=80" (Val (PBool true))
                "cray-mpich-binary" (Some "8.1.18 cuda_arch=80") None None
                "cray-mpich-binary@8.1.18 cuda_arch=80"
                eq_refl eq_refl eq_refl eq_refl).
  destruct H as [H _]. now apply H.
Qed.

(** ** The composed spec *)

(** The composed spec has no whitespace around it. *)
Lemma compose_spec_trimmed (impl clause : string) (o : option string) :
  strip (compose_spec impl clause o) = compose_spec impl clause o.
Proof.
  unfold compose_spec. apply strip_idempotent.
Qed.

(** C8 (as amended).  For a set whose mpi is ["mpich"], with no version,
    the spec appended to the set's specs, after the declared ones, is exactly
    ["mpich@4.1rc2 device=ch4 netmod=ofi +slurm"] when the gpu field is
    missing or falsy, and that string followed by [ cuda_arch=80] when it is
    truthy.  The composed spec is trimmed: it has no whitespace around it,
    and an entry without options leaves no trailing space. *)
Theorem mpich_default_spec (config : PackageSet) :
  ps_mpi config = Val "mpich" ->
  expand_set (normalize config) =
  inr {| ps_specs :=
           Val (specs_of config ++
                [if gpu_truthy (ps_gpu config)
                 then "mpich@4.1rc2 device=ch4 netmod=ofi +slurm cuda_arch=80"
                 else "mpich@4.1rc2 device=ch4 netmod=ofi +slurm"])%list;
         ps_mpi := Val "mpich";
         ps_gpu := ps_gpu (normalize config) |} /\
  (forall self name,
      generate_package_specs self [(name, config)] =
      ([(name, expanded config)],
       inr {| self_compilers := self_compilers self;
              self_packages := Some [(name, expanded config)] |})) /\
  (forall impl clause o,
      strip (compose_spec impl clause o) = compose_spec impl clause o) /\
  compose_spec "cray-mpich-binary" (version_opt None None) None = "cray-mpich-binary".
Proof.
  intro Hm.
  pose proof (expand_set_supported config "mpich" "mpich" None (Some "4.1rc2")
                (Some "device=ch4 netmod=ofi +slurm") Hm eq_refl eq_refl eq_refl) as He.
  repeat split.
  - rewrite He. unfold with_spec, list_append, cuda_clause.
    unfold normalize at 1; cbn [ps_mpi]. rewrite Hm.
    now destruct (gpu_truthy (ps_gpu config)).
  - intros self name. unfold generate_package_specs.
    cbn [normalize_loop map expand_loop]. unfold expanded. now rewrite He.
  - apply compose_spec_trimmed.
Qed.

Lemma mpich_default_spec_witness :
  expand_set (normalize {| ps_specs := Val ["fftw"]; ps_mpi := Val "mpich";
                           ps_gpu := Missing |}) =
  inr {| ps_specs := Val ["fftw"; "mpich@4.1rc2 device=ch4 netmod=ofi +slurm"];
         ps_mpi := Val "mpich"; ps_gpu := PyNone |}.
Proof.
  exact (proj1 (mpich_default_spec
                  {| ps_specs := Val ["fftw"]; ps_mpi := Val "mpich"; ps_gpu := Missing |}
                  eq_refl)).
Defined.

(** C8, as the claim states it, fails on a set with a truthy gpu field: the
    spec appended for ["mpich"] then carries the cuda clause. *)
Lemma mpich_default_spec_counterexample :
  expand_set (normalize {| ps_specs := Missing; ps_mpi := Val "mpich";
                           ps_gpu := Val (PBool true) |}) =
  inr {| ps_specs := Val ["mpich@4.1rc2 device=ch4 netmod=ofi +slurm cuda_arch=80"];
         ps_mpi := Val "mpich"; ps_gpu := Val (PBool true) |} /\
  ~ (forall config,
        ps_mpi config = Val "mpich" ->
        expand_set (normalize config) =
        inr (with_spec config "mpich@4.1rc2 device=ch4 netmod=ofi +slurm")).
Proof.
  split; [reflexivity|].
  intro H.
  specialize (H {| ps_specs := Missing; ps_mpi := Val "mpich";
                   ps_gpu := Val (PBool true) |} eq_refl).
  vm_compute in H. discriminate.
Qed.

(** ** A set that is expanded a second time *)

Lemma normalize_idempotent (config : PackageSet) :
  normalize (normalize config) = normalize config.
Proof.
  unfold normalize; cbn [ps_specs ps_mpi ps_gpu].
  destruct (ps_specs config), (ps_mpi config), (ps_gpu config); reflexivity.
Qed.

Lemma specs_of_normalize (config : PackageSet) :
  specs_of (normalize config) = specs_of config.
Proof.
  unfold specs_of, normalize; cbn [ps_specs]. now destruct (ps_specs config).
Qed.

Lemma mpi_is_set_normalize (config : PackageSet) :
  mpi_is_set (normalize config) = mpi_is_set config.
Proof.
  unfold mpi_is_set, normalize; cbn [ps_mpi]. now destruct (ps_mpi config).
Qed.

Lemma unsupported_mpi_normalize (config : PackageSet) :
  unsupported_mpi (normalize config) = unsupported_mpi config.
Proof.
  unfold unsupported_mpi, normalize; cbn [ps_mpi]. now destruct (ps_mpi config).
Qed.

Lemma cuda_clause_normalize (impl : string) (config : PackageSet) :
  cuda_clause impl (ps_gpu (normalize config)) = cuda_clause impl (ps_gpu config).
Proof.
  unfold cuda_clause. now rewrite gpu_truthy_normalize.
Qed.

Lemma list_append_neq {A : Type} (l : list A) (x : A) : list_append l x <> l.
Proof.
  unfold list_append. intro H. apply (f_equal (@List.length A)) in H.
  rewrite length_app in H. simpl in H. lia.
Qed.

(** What the loops do to a supported set that they visit again: a set with
    no mpi is left as it is, a set with an mpi gains the same spec again. *)
Lemma expanded_again (config : PackageSet) :
  unsupported_mpi config = None ->
  unsupported_mpi (expanded config) = None /\
  specs_of (expanded (expanded config)) =
    (specs_of (expanded config) ++
     if mpi_is_set config then [last (specs_of (expanded config)) ""] else [])%list /\
  (expanded (expanded config) = expanded config <-> mpi_is_set config = false).
Proof.
  intro Hu. destruct (mpi_is_set config) eqn:Hset.
  - destruct (supported_set_inv _ Hu Hset) as (mpi & impl & ver & d & o & Hm & Hs & Hp & Hl).
    pose proof (expand_set_supported config mpi impl ver d o Hm Hs Hp Hl) as He.
    set (spec := compose_spec impl (version_opt ver d) o ++ cuda_clause impl (ps_gpu config))
      in He.
    assert (E1 : expanded config = with_spec config spec).
    { unfold expanded. now rewrite He. }
    assert (Hm1 : ps_mpi (with_spec config spec) = Val mpi).
    { unfold with_spec, normalize; cbn [ps_mpi]. now rewrite Hm. }
    pose proof (expand_set_supported (with_spec config spec) mpi impl ver d o
                  Hm1 Hs Hp Hl) as He2.
    assert (Hg : cuda_clause impl (ps_gpu (with_spec config spec)) =
                 cuda_clause impl (ps_gpu config)).
    { unfold with_spec; cbn [ps_gpu]. apply cuda_clause_normalize. }
    rewrite Hg in He2. fold spec in He2.
    assert (E2 : expanded (with_spec config spec) = with_spec (with_spec config spec) spec).
    { unfold expanded. now rewrite He2. }
    rewrite E1, E2. repeat split.
    + rewrite <- Hu. unfold unsupported_mpi. rewrite Hm1, Hm. reflexivity.
    + unfold with_spec at 1 3 4. unfold specs_of at 1 3 5. cbn [ps_specs].
      unfold list_append. now rewrite last_last.
    + intro H. exfalso. apply (f_equal specs_of) in H.
      unfold with_spec at 1 3 in H. unfold specs_of at 1 3 in H. cbn [ps_specs] in H.
      now apply list_append_neq in H.
    + discriminate.
  - assert (E1 : expanded config = normalize config).
    { unfold expanded. now rewrite (expand_set_no_mpi _ Hset). }
    assert (E2 : expanded (normalize config) = normalize config).
    { unfold expanded. rewrite normalize_idempotent.
      now rewrite (expand_set_no_mpi _ Hset). }
    rewrite E1, E2. repeat split.
    + now rewrite unsupported_mpi_normalize.
    + now rewrite app_nil_r.
Qed.

(** ** All or nothing *)

Lemma name_specs_normalize_loop (packages : Packages) :
  name_specs (normalize_loop packages) = name_specs packages.
Proof.
  unfold name_specs, normalize_loop. rewrite map_map.
  apply map_ext. intros [name config]. cbn [fst snd].
  now rewrite specs_of_normalize.
Qed.

(** A supported set with an mpi leaves the loops with one spec more. *)
Lemma expanded_gains (config : PackageSet) :
  unsupported_mpi config = None ->
  mpi_is_set config = true ->
  exists spec, specs_of (expanded config) = (specs_of config ++ [spec])%list.
Proof.
  intros Hu Hset.
  destruct (supported_set_inv _ Hu Hset) as (mpi & impl & ver & d & o & Hm & Hs & Hp & Hl).
  eexists. unfold expanded.
  rewrite (expand_set_supported config mpi impl ver d o Hm Hs Hp Hl).
  reflexivity.
Qed.

(** C2 (as amended).  For a packages mapping whose sets are mappings with
    an mpi that is absent, null or a string and with specs that are absent,
    null or a list, no two sets being the same object or sharing a specs
    list: when a set names an mpi implementation outside the table,
    [generate_package_specs] raises [Exception("Unsupported mpi: <impl>")]
    for the first such set in document order and does not bind
    [self.packages].  The raw document has been written into by then: every
    set is normalised, every set before the first unsupported one that has a
    truthy mpi has gained its MPI spec, and the unsupported set and the sets
    after it have gained none. *)
Theorem unsupported_mpi_aborts (self : Recipe) (raw : Packages) :
  Exists (fun nc => unsupported_mpi (snd nc) <> None) raw ->
  exists pre name config post impl,
    raw = (pre ++ (name, config) :: post)%list /\
    all_supported pre /\
    unsupported_mpi config = Some impl /\
    generate_package_specs self raw =
      ((expanded_all pre ++ normalize_loop ((name, config) :: post))%list,
       inl (Exception ("Unsupported mpi: " ++ impl))) /\
    name_specs (normalize_loop ((name, config) :: post)) =
      name_specs ((name, config) :: post) /\
    (forall n c, In (n, c) pre -> mpi_is_set c = true ->
                 exists spec, specs_of (expanded c) = (specs_of c ++ [spec])%list).
Proof.
  intro H.
  destruct (first_unsupported _ H) as (pre & name & config & post & impl & -> & Hpre & Hc).
  exists pre, name, config, post, impl. repeat split; try assumption.
  - unfold generate_package_specs.
    now rewrite (expand_loop_unsupported pre post name config impl Hpre Hc).
  - apply name_specs_normalize_loop.
  - intros n c Hin Hs. apply expanded_gains; [|assumption].
    unfold all_supported in Hpre. rewrite Forall_forall in Hpre.
    exact (Hpre _ Hin).
Qed.

Lemma unsupported_mpi_aborts_witness :
  exists pre name config post impl,
    [("tools", {| ps_specs := Val ["cmake"]; ps_mpi := Missing; ps_gpu := Missing |});
     ("prgenv", {| ps_specs := Missing; ps_mpi := Val "openmpi@4.1";
                   ps_gpu := Missing |})] =
      (pre ++ (name, config) :: post)%list /\
    all_supported pre /\
    unsupported_mpi config = Some impl /\
    generate_package_specs {| self_compilers := []; self_packages := None |}
      [("tools", {| ps_specs := Val ["cmake"]; ps_mpi := Missing; ps_gpu := Missing |});
       ("prgenv", {| ps_specs := Missing; ps_mpi := Val "openmpi@4.1";
                     ps_gpu := Missing |})] =
      ((expanded_all pre ++ normalize_loop ((name, config) :: post))%list,
       inl (Exception ("Unsupported mpi: " ++ impl))) /\
    name_specs (normalize_loop ((name, config) :: post)) =
      name_specs ((name, config) :: post) /\
    (forall n c, In (n, c) pre -> mpi_is_set c = true ->
                 exists spec, specs_of (expanded c) = (specs_of c ++ [spec])%list).
Proof.
  apply unsupported_mpi_aborts.
  apply Exists_cons_tl, Exists_cons_hd. vm_compute. discriminate.
Defined.

(** C2, as the claim states it, fails on a document whose unsupported set
    comes after a supported one: the earlier set has gained its MPI spec in
    the raw document when the exception is raised. *)
Lemma unsupported_mpi_aborts_counterexample :
  generate_package_specs {| self_compilers := []; self_packages := None |}
    [("a", {| ps_specs := Missing; ps_mpi := Val "mpich"; ps_gpu := Missing |});
     ("b", {| ps_specs := Missing; ps_mpi := Val "openmpi"; ps_gpu := Missing |})] =
  ([("a", {| ps_specs := Val ["mpich@4.1rc2 device=ch4 netmod=ofi +slurm"];
             ps_mpi := Val "mpich"; ps_gpu := PyNone |});
    ("b", {| ps_specs := Val []; ps_mpi := Val "openmpi"; ps_gpu := PyNone |})],
   inl (Exception "Unsupported mpi: openmpi")) /\
  ~ (forall self raw raw' outcome,
        Exists (fun nc => unsupported_mpi (snd nc) <> None) raw ->
        generate_package_specs self raw = (raw', outcome) ->
        name_specs raw' = name_specs raw).
Proof.
  split; [reflexivity|].
  intro H.
  specialize (H {| self_compilers := []; self_packages := None |}
                [("a", {| ps_specs := Missing; ps_mpi := Val "mpich"; ps_gpu := Missing |});
                 ("b", {| ps_specs := Missing; ps_mpi := Val "openmpi";
                          ps_gpu := Missing |})]
                _ _
                ltac:(apply Exists_cons_tl, Exists_cons_hd; vm_compute; discriminate)
                eq_refl).
  vm_compute in H. discriminate.
Qed.

(** ** Resolving twice *)

Lemma all_supported_expanded (raw : Packages) :
  all_supported raw -> all_supported (expanded_all raw).
Proof.
  unfold all_supported, expanded_all.
  induction 1 as [|[name config] raw Hc _ IH]; [constructor|].
  cbn [map]. constructor; [|exact IH].
  cbn [snd] in *. now apply expanded_again.
Qed.

Lemma mpi_is_set_expanded (config : PackageSet) :
  unsupported_mpi config = None -> mpi_is_set (expanded config) = mpi_is_set config.
Proof.
  intro Hc. destruct (mpi_is_set config) eqn:Hset.
  - destruct (supported_set_inv _ Hc Hset) as (mpi & impl & ver & d & o & Hm & Hs & Hp & Hl).
    unfold expanded.
    rewrite (expand_set_supported config mpi impl ver d o Hm Hs Hp Hl).
    unfold mpi_is_set, with_spec, normalize; cbn [ps_mpi]. now rewrite Hm, Hs.
  - unfold expanded. rewrite (expand_set_no_mpi _ Hset).
    now rewrite mpi_is_set_normalize, Hset.
Qed.

Lemma name_specs_expanded_again (raw : Packages) :
  all_supported raw ->
  name_specs (expanded_all (expanded_all raw)) =
  map (fun nc => (fst nc,
                  (specs_of (snd nc) ++
                   if mpi_is_set (snd nc) then [last (specs_of (snd nc)) ""] else [])%list))
      (expanded_all raw).
Proof.
  unfold all_supported, expanded_all, name_specs.
  induction 1 as [|[name config] raw Hc _ IH]; [reflexivity|].
  cbn [map fst snd] in *. rewrite IH. f_equal. f_equal.
  destruct (expanded_again _ Hc) as (_ & Hspecs & _).
  now rewrite Hspecs, (mpi_is_set_expanded _ Hc).
Qed.

Lemma expanded_all_fixed (raw : Packages) :
  all_supported raw ->
  (expanded_all (expanded_all raw) = expanded_all raw <->
   Forall (fun nc => mpi_is_set (snd nc) = false) raw).
Proof.
  unfold all_supported, expanded_all.
  induction 1 as [|[name config] raw Hc _ IH]; [split; constructor|].
  cbn [map snd] in *.
  destruct (expanded_again _ Hc) as (_ & _ & Hfix).
  split.
  - intro H. injection H as H1 H2. constructor.
    + cbn [snd]. now apply Hfix.
    + now apply IH.
  - intro H. inversion H as [|? ? H1 H2]; subst. cbn [snd] in H1.
    f_equal.
    + f_equal. now apply Hfix.
    + now apply IH.
Qed.



(** X20.  Resolving the resolved document again.  Package-spec resolution
    writes into the document it is handed, which becomes [self.packages].
    For documents of the modelled shape in which no two sets share a specs
    list: when both resolutions have succeeded, compiler-spec resolution of
    the same compilers document returns the recipe unchanged, and
    package-spec resolution of the document that the first call wrote into
    succeeds again and appends to every set with a truthy mpi its MPI spec
    a second time; so that second result equals the first exactly when no
    set of the document has a truthy mpi. *)
Theorem resolution_repeated (self self1 self2 : Recipe) (rawc : RawCompilers)
        (rawp raw1 : Packages) :
  generate_compiler_specs self rawc = inr self1 ->
  generate_package_specs self1 rawp = (raw1, inr self2) ->
  (forall other, exists other1,
      generate_compiler_specs other rawc = inr other1 /\
      self_compilers other1 = self_compilers self1) /\
  (forall other, exists other2,
      generate_package_specs other rawp = (raw1, inr other2) /\
      self_packages other2 = self_packages self2) /\
  generate_compiler_specs self1 rawc = inr self1 /\
  generate_compiler_specs self2 rawc = inr self2 /\
  exists raw2 self3,
    generate_package_specs self2 raw1 = (raw2, inr self3) /\
    self_packages self2 = Some raw1 /\
    self_packages self3 = Some raw2 /\
    self_compilers self3 = self_compilers self2 /\
    name_specs raw2 =
      map (fun nc => (fst nc,
                      (specs_of (snd nc) ++
                       if mpi_is_set (snd nc) then [last (specs_of (snd nc)) ""]
                       else [])%list)) raw1 /\
    (raw2 = raw1 <-> Forall (fun nc => mpi_is_set (snd nc) = false) rawp).
Proof.
  intros Hc Hp.
  unfold generate_compiler_specs, bind in Hc.
  destruct (resolve_compilers rawc) as [e|compilers] eqn:Hr; [discriminate|].
  injection Hc as <-.
  destruct (generate_package_specs_ok _ _ _ _ Hp) as (Hs & -> & ->).
  cbn [self_compilers self_packages].
  repeat split.
  - intro other. eexists. unfold generate_compiler_specs, bind. rewrite Hr.
    split; reflexivity.
  - intro other. eexists. unfold generate_package_specs.
    rewrite (expand_loop_supported _ Hs). split; reflexivity.
  - unfold generate_compiler_specs, bind. now rewrite Hr.
  - unfold generate_compiler_specs, bind. now rewrite Hr.
  - exists (expanded_all (expanded_all rawp)). eexists.
    unfold generate_package_specs.
    rewrite (expand_loop_supported _ (all_supported_expanded _ Hs)).
    cbn [self_compilers self_packages].
    repeat split.
    + now apply name_specs_expanded_again.
    + now apply expanded_all_fixed.
    + now apply expanded_all_fixed.
Qed.

Lemma resolution_repeated_witness :
  let self1 := returned example_recipe
                 (generate_compiler_specs example_recipe example_compilers) in
  let raw1 := fst (generate_package_specs self1 example_packages) in
  let self2 := returned self1 (snd (generate_package_specs self1 example_packages)) in
  generate_compiler_specs self2 example_compilers = inr self2 /\
  exists raw2 self3,
    generate_package_specs self2 raw1 = (raw2, inr self3) /\
    self_packages self3 = Some raw2 /\
    (raw2 = raw1 <-> Forall (fun nc => mpi_is_set (snd nc) = false) example_packages).
Proof.
  intros self1 raw1 self2.
  destruct (resolution_repeated example_recipe self1 self2 example_compilers
              example_packages raw1 eq_refl eq_refl)
    as (_ & _ & _ & Hc & raw2 & self3 & Hp & _ & Hs & _ & _ & Hfix).
  split; [exact Hc|].
  exists raw2, self3. repeat split; try assumption; apply Hfix.
Defined.

(** Package-spec resolution of its own output is not the identity: a set
    with an mpi has its MPI spec twice. *)
Lemma generate_package_specs_twice :
  generate_package_specs example_recipe
    [("prgenv", {| ps_specs := Missing; ps_mpi := Val "mpich"; ps_gpu := Missing |})] =
  ([("prgenv", {| ps_specs := Val ["mpich@4.1rc2 device=ch4 netmod=ofi +slurm"];
                  ps_mpi := Val "mpich"; ps_gpu := PyNone |})],
   inr {| self_compilers := [];
          self_packages :=
            Some [("prgenv",
                   {| ps_specs := Val ["mpich@4.1rc2 device=ch4 netmod=ofi +slurm"];
                      ps_mpi := Val "mpich"; ps_gpu := PyNone |})] |}) /\
  generate_package_specs example_recipe
    [("prgenv", {| ps_specs := Val ["mpich@4.1rc2 device=ch4 netmod=ofi +slurm"];
                   ps_mpi := Val "mpich"; ps_gpu := PyNone |})] =
  ([("prgenv", {| ps_specs := Val ["mpich@4.1rc2 device=ch4 netmod=ofi +slurm";
                                   "mpich@4.1rc2 device=ch4 netmod=ofi +slurm"];
                  ps_mpi := Val "mpich"; ps_gpu := PyNone |})],
   inr {| self_compilers := [];
          self_packages :=
            Some [("prgenv",
                   {| ps_specs := Val ["mpich@4.1rc2 device=ch4 netmod=ofi +slurm";
                                       "mpich@4.1rc2 device=ch4 netmod=ofi +slurm"];
                      ps_mpi := Val "mpich"; ps_gpu := PyNone |})] |}) /\
  ~ (forall self raw raw1 self1 raw2 self2,
        generate_package_specs self raw = (raw1, inr self1) ->
        generate_package_specs self1 raw1 = (raw2, inr self2) ->
        self_packages self2 = self_packages self1).
Proof.
  repeat split; try reflexivity.
  intro H.
  specialize (H example_recipe
                [("prgenv", {| ps_specs := Missing; ps_mpi := Val "mpich";
                               ps_gpu := Missing |})]
                _ _ _ _ eq_refl eq_refl).
  vm_compute in H. discriminate.
Qed.

(** ** The compiler stages *)

Lemma llvm_step_resolved (acc : list string) (spec : string) :
  llvm_step acc spec = (acc ++ llvm_resolved spec)%list.
Proof.
  unfold llvm_step, llvm_resolved, list_append.
  destruct (startswith spec "nvhpc"), (startswith spec "llvm"); cbn [List.app];
    try rewrite <- app_assoc; try rewrite app_nil_r; reflexivity.
Qed.

Lemma fold_llvm_step (declared acc : list string) :
  fold_left llvm_step declared acc = (acc ++ flat_map llvm_resolved declared)%list.
Proof.
  revert acc. induction declared as [|spec declared IH]; intro acc; cbn [fold_left flat_map].
  - now rewrite app_nil_r.
  - now rewrite IH, llvm_step_resolved, <- app_assoc.
Qed.

(** The loop over the declared llvm specs keeps, in order, what each spec
    contributes. *)
Lemma llvm_specs_flat_map (declared : list string) :
  llvm_specs declared = flat_map llvm_resolved declared.
Proof.
  unfold llvm_specs. now rewrite fold_llvm_step.
Qed.

(** Every resolved llvm spec starts with one of the two prefixes. *)
Lemma llvm_resolved_kept (spec resolved : string) :
  In resolved (llvm_resolved spec) -> llvm_kept resolved = true.
Proof.
  unfold llvm_resolved, llvm_kept, startswith. intro H.
  apply in_app_or in H as [H | H].
  - destruct (String.prefix "nvhpc" spec) eqn:Hp; [|contradiction].
    destruct H as [<- | []]. now rewrite (prefix_append _ _ _ Hp).
  - destruct (String.prefix "llvm" spec) eqn:Hp; [|contradiction].
    destruct H as [<- | []]. rewrite (prefix_append _ _ _ Hp). apply orb_true_r.
Qed.

Lemma llvm_resolved_dropped (spec : string) :
  llvm_kept spec = false -> llvm_resolved spec = [].
Proof.
  unfold llvm_kept, llvm_resolved. intro H.
  apply orb_false_elim in H as [-> ->]. reflexivity.
Qed.

Lemma flat_map_llvm_filter (declared : list string) :
  flat_map llvm_resolved declared = flat_map llvm_resolved (filter llvm_kept declared).
Proof.
  induction declared as [|spec declared IH]; [reflexivity|].
  cbn [flat_map filter]. destruct (llvm_kept spec) eqn:Hk.
  - cbn [flat_map]. now rewrite IH.
  - now rewrite (llvm_resolved_dropped _ Hk), IH.
Qed.

(** The compilers that a raw input with both required stages resolves to. *)
Lemma resolve_compilers_stages (raw : RawCompilers) (b g : RawStage)
      (s : string) (rest gs : list string) :
  raw_bootstrap raw = Some b ->
  raw_specs b = Some (s :: rest) ->
  raw_gcc raw = Some g ->
  raw_specs g = Some gs ->
  resolve_compilers raw =
  bind (resolve_llvm raw)
       (fun llvm =>
          inr (List.app
                 [("bootstrap",
                   {| st_packages := Some bootstrap_packages;
                      st_specs := [s ++ " languages=c,c++";
                                   "squashfs default_compression=zstd"];
                      st_requires := None |});
                  ("gcc",
                   {| st_packages := Some gcc_packages;
                      st_specs := gs;
                      st_requires := Some s |})]
                 llvm)).
Proof.
  intros Hb Hbs Hg Hgs. unfold resolve_compilers.
  rewrite Hb; cbn [getitem bind]. rewrite Hbs; cbn [getitem bind first_item].
  rewrite Hg; cbn [getitem bind]. rewrite Hgs; cbn [getitem bind].
  reflexivity.
Qed.

Lemma resolve_llvm_ok (raw : RawCompilers) :
  llvm_ok raw = true -> exists llvm, resolve_llvm raw = inr llvm.
Proof.
  unfold llvm_ok, resolve_llvm.
  destruct (raw_llvm raw) as [l|]; [|eexists; reflexivity].
  destruct (raw_specs l), (raw_requires l); try discriminate.
  eexists; reflexivity.
Qed.

(** C3 (as amended).  In the llvm stage, every declared spec beginning with
    [nvhpc] appears in the resolved specs with [~mpi~blas~lapack] appended
    and every declared spec beginning with [llvm] appears with
    [ +clang targets=x86 ~gold ^ninja@kitware] appended, in declaration
    order; a declared spec with any other prefix is dropped: it contributes
    nothing, and no resolved spec has another prefix. *)
Theorem llvm_stage_specs (self self' : Recipe) (raw : RawCompilers)
        (llvm : RawStage) (declared : list string) :
  generate_compiler_specs self raw = inr self' ->
  raw_llvm raw = Some llvm ->
  raw_specs llvm = Some declared ->
  exists stage,
    lookup "llvm" (self_compilers self') = Some stage /\
    st_specs stage = flat_map llvm_resolved declared /\
    st_specs stage = flat_map llvm_resolved (filter llvm_kept declared) /\
    (forall spec, In spec declared -> startswith spec "nvhpc" = true ->
                  In (spec ++ "~mpi~blas~lapack") (st_specs stage)) /\
    (forall spec, In spec declared -> startswith spec "llvm" = true ->
                  In (spec ++ " +clang targets=x86 ~gold ^ninja@kitware") (st_specs stage)) /\
    (forall spec, startswith spec "nvhpc" = false -> startswith spec "llvm" = false ->
                  llvm_resolved spec = [] /\ ~ In spec (st_specs stage)).
Proof.
  intros Hgen Hllvm Hspecs.
  unfold generate_compiler_specs, bind in Hgen.
  destruct (resolve_compilers raw) as [e|compilers] eqn:Hr; [discriminate|].
  injection Hgen as <-. cbn [self_compilers].
  unfold resolve_compilers, bind in Hr.
  destruct (getitem "bootstrap" (raw_bootstrap raw)) as [e|b]; [discriminate|].
  destruct (getitem "specs" (raw_specs b)) as [e|bs]; [discriminate|].
  destruct (first_item bs) as [e|s]; [discriminate|].
  destruct (getitem "gcc" (raw_gcc raw)) as [e|g]; [discriminate|].
  destruct (getitem "specs" (raw_specs g)) as [e|gs]; [discriminate|].
  unfold resolve_llvm in Hr. rewrite Hllvm, Hspecs in Hr. cbn [getitem bind] in Hr.
  destruct (raw_requires llvm) as [requires|]; [|discriminate].
  cbn [getitem bind] in Hr. injection Hr as <-.
  eexists. split; [reflexivity|]. cbn [st_specs].
  rewrite llvm_specs_flat_map.
  split; [reflexivity|]. split; [apply flat_map_llvm_filter|].
  split; [|split].
  - intros spec Hin Hp. apply in_flat_map. exists spec. split; [assumption|].
    unfold llvm_resolved. rewrite Hp. now left.
  - intros spec Hin Hp. apply in_flat_map. exists spec. split; [assumption|].
    unfold llvm_resolved. rewrite Hp. apply in_or_app. right. now left.
  - intros spec Hn Hl. split.
    + unfold llvm_resolved. now rewrite Hn, Hl.
    + intro Hin. apply in_flat_map in Hin as (x & _ & Hx).
      apply llvm_resolved_kept in Hx. unfold llvm_kept in Hx.
      rewrite Hn, Hl in Hx. discriminate.
Qed.

Lemma llvm_stage_specs_witness :
  exists stage,
    lookup "llvm" (self_compilers
                     (returned example_recipe
                        (generate_compiler_specs example_recipe example_compilers)))
    = Some stage /\
    st_specs stage = ["nvhpc@22.7~mpi~blas~lapack";
                      "llvm@14 +clang targets=x86 ~gold ^ninja@kitware"].
Proof.
  destruct (llvm_stage_specs example_recipe _ example_compilers _ _
              eq_refl eq_refl eq_refl) as (stage & Hl & Hs & _).
  exists stage. split; [exact Hl | exact Hs].
Defined.

(** C3, as the claim states it, fails on a declared spec with another
    prefix: [clang@14] is not passed through, it is dropped. *)
Lemma llvm_stage_specs_counterexample :
  llvm_specs ["clang@14"] = [] /\
  resolve_llvm {| raw_bootstrap := None; raw_gcc := None;
                  raw_llvm := Some {| raw_specs := Some ["clang@14"];
                                      raw_requires := Some "gcc@11.3" |} |} =
  inr [("llvm", {| st_packages := None; st_specs := [];
                   st_requires := Some "gcc@11.3" |})] /\
  ~ (forall declared spec,
        In spec declared ->
        startswith spec "nvhpc" = false -> startswith spec "llvm" = false ->
        In spec (llvm_specs declared)).
Proof.
  repeat split; try reflexivity.
  intro H. apply (H ["clang@14"] "clang@14"); try reflexivity. now left.
Qed.

(** Resolution returns on a raw input with both required stages whose llvm
    stage, if there is one, has its two keys. *)
Lemma generate_compiler_specs_returns (self : Recipe) (raw : RawCompilers)
      (b g : RawStage) (s : string) (rest gs : list string) :
  raw_bootstrap raw = Some b ->
  raw_specs b = Some (s :: rest) ->
  raw_gcc raw = Some g ->
  raw_specs g = Some gs ->
  llvm_ok raw = true ->
  exists self', generate_compiler_specs self raw = inr self'.
Proof.
  intros Hb Hbs Hg Hgs Hok.
  unfold generate_compiler_specs.
  rewrite (resolve_compilers_stages raw b g s rest gs Hb Hbs Hg Hgs).
  destruct (resolve_llvm_ok _ Hok) as [llvm ->].
  eexists. reflexivity.
Qed.

(** C9.  For a raw compilers input with a bootstrap stage that declares at
    least one spec and a gcc stage with specs, the resolved gcc stage's
    [requires] is the first declared bootstrap spec exactly as written, the
    value that the bootstrap stage's own first spec extends with
    [ languages=c,c++]; and resolution returns whenever the llvm stage, if
    there is one, has its two keys. *)
Theorem gcc_requires_bootstrap (self : Recipe) (raw : RawCompilers) (b g : RawStage)
        (s : string) (rest gs : list string) :
  raw_bootstrap raw = Some b ->
  raw_specs b = Some (s :: rest) ->
  raw_gcc raw = Some g ->
  raw_specs g = Some gs ->
  (forall self',
      generate_compiler_specs self raw = inr self' ->
      exists bootstrap gcc,
        lookup "gcc" (self_compilers self') = Some gcc /\
        st_requires gcc = Some s /\
        lookup "bootstrap" (self_compilers self') = Some bootstrap /\
        hd_error (st_specs bootstrap) = Some (s ++ " languages=c,c++")) /\
  (llvm_ok raw = true -> exists self', generate_compiler_specs self raw = inr self').
Proof.
  intros Hb Hbs Hg Hgs. split.
  - intros self' H. unfold generate_compiler_specs in H.
    rewrite (resolve_compilers_stages raw b g s rest gs Hb Hbs Hg Hgs) in H.
    unfold bind in H.
    destruct (resolve_llvm raw) as [e|llvm]; [discriminate|].
    injection H as <-. cbn [self_compilers].
    do 2 eexists. repeat split.
  - intro Hok.
    exact (generate_compiler_specs_returns self raw b g s rest gs Hb Hbs Hg Hgs Hok).
Qed.

Lemma gcc_requires_bootstrap_witness :
  exists self', generate_compiler_specs example_recipe example_compilers = inr self' /\
    exists gcc, lookup "gcc" (self_compilers self') = Some gcc /\
                st_requires gcc = Some "gcc@11".
Proof.
  destruct (gcc_requires_bootstrap example_recipe example_compilers _ _ _ _ _
              eq_refl eq_refl eq_refl eq_refl) as [Hreq Hret].
  destruct (Hret eq_refl) as [self' Hself].
  exists self'. split; [exact Hself|].
  destruct (Hreq self' Hself) as (bootstrap & gcc & Hl & Hr & _).
  exists gcc. split; assumption.
Defined.

(** C10.  For a raw compilers input whose bootstrap stage declares one or
    more specs, the resolved bootstrap stage's specs are exactly two: the
    first declared spec with [ languages=c,c++] appended, then
    ["squashfs default_compression=zstd"].  The declared specs after the
    first are discarded: what resolution yields is what it yields when only
    the first one is declared. *)
Theorem bootstrap_specs_pair (self : Recipe) (raw : RawCompilers) (b : RawStage)
        (s : string) (rest : list string) :
  raw_bootstrap raw = Some b ->
  raw_specs b = Some (s :: rest) ->
  (forall self',
      generate_compiler_specs self raw = inr self' ->
      exists bootstrap,
        lookup "bootstrap" (self_compilers self') = Some bootstrap /\
        st_specs bootstrap = [s ++ " languages=c,c++"; "squashfs default_compression=zstd"] /\
        List.length (st_specs bootstrap) = 2) /\
  generate_compiler_specs self raw =
    generate_compiler_specs self (with_bootstrap_specs raw [s]) /\
  ((exists g gs, raw_gcc raw = Some g /\ raw_specs g = Some gs) ->
   llvm_ok raw = true ->
   exists self', generate_compiler_specs self raw = inr self').
Proof.
  intros Hb Hbs. split; [|split].
  - intros self' H. unfold generate_compiler_specs, bind in H.
    destruct (resolve_compilers raw) as [e|compilers] eqn:Hr; [discriminate|].
    injection H as <-. cbn [self_compilers].
    unfold resolve_compilers in Hr.
    rewrite Hb in Hr; cbn [getitem bind] in Hr.
    rewrite Hbs in Hr; cbn [getitem bind first_item] in Hr.
    unfold bind in Hr.
    destruct (getitem "gcc" (raw_gcc raw)) as [e|g]; [discriminate|].
    destruct (getitem "specs" (raw_specs g)) as [e|gs]; [discriminate|].
    destruct (resolve_llvm raw) as [e|llvm]; [discriminate|].
    injection Hr as <-. eexists. repeat split.
  - unfold generate_compiler_specs, resolve_compilers, resolve_llvm, with_bootstrap_specs.
    cbn [raw_bootstrap raw_gcc raw_llvm raw_specs].
    rewrite Hb; cbn [getitem bind]. rewrite Hbs; cbn [getitem bind first_item].
    reflexivity.
  - intros (g & gs & Hg & Hgs) Hok.
    exact (generate_compiler_specs_returns self raw b g s rest gs Hb Hbs Hg Hgs Hok).
Qed.

Lemma bootstrap_specs_pair_witness :
  exists self', generate_compiler_specs example_recipe example_compilers = inr self' /\
    exists bootstrap,
      lookup "bootstrap" (self_compilers self') = Some bootstrap /\
      st_specs bootstrap = ["gcc@11 languages=c,c++"; "squashfs default_compression=zstd"].
Proof.
  destruct (bootstrap_specs_pair example_recipe example_compilers _ "gcc@11"
              ["binutils@2.38"] eq_refl eq_refl) as (Hspecs & _ & Hret).
  destruct (Hret (ex_intro _ _ (ex_intro _ _ (conj eq_refl eq_refl))) eq_refl)
    as [self' Hself].
  exists self'. split; [exact Hself|].
  destruct (Hspecs self' Hself) as (bootstrap & Hl & Hs & _).
  exists bootstrap. split; assumption.
Defined.

(** ** The mirror *)

(** C7 (as amended).  For a mirror config that is null or a mapping without
    keys, the policy is (source = null, key = null).  For a mapping with at
    least one key, enabled defaults to true when the [enable] field is
    absent, the source is the candidate source path when the enable value is
    truthy and null when it is not, whatever the candidate, and the key is
    the config's [key] field, null when absent, whatever the enable value. *)
Theorem mirror_policy (source : option string) :
  Mirror_init None source = {| mirror_key := PNone; mirror_source := None |} /\
  Mirror_init (Some []) source = {| mirror_key := PNone; mirror_source := None |} /\
  (forall d, d <> [] ->
     mirror_key (Mirror_init (Some d) source) = dict_get d "key" PNone /\
     mirror_source (Mirror_init (Some d) source) =
       (if truthy (dict_get d "enable" (PBool true)) then source else None) /\
     (lookup "enable" d = None -> mirror_source (Mirror_init (Some d) source) = source) /\
     (lookup "key" d = None -> mirror_key (Mirror_init (Some d) source) = PNone)).
Proof.
  split; [reflexivity|]. split; [reflexivity|].
  intros d Hd. destruct d as [|kv d]; [congruence|].
  unfold Mirror_init; cbn [dict_truthy mirror_key mirror_source].
  split; [reflexivity|]. split.
  - now destruct (truthy (dict_get (kv :: d) "enable" (PBool true))).
  - split; intro H; unfold dict_get; now rewrite H.
Qed.

Lemma mirror_policy_witness :
  mirror_key (Mirror_init (Some [("enable", PBool true); ("key", PStr "/x")])
                (Some "/recipe/mirrors.yaml")) = PStr "/x" /\
  mirror_source (Mirror_init (Some [("enable", PBool true); ("key", PStr "/x")])
                   (Some "/recipe/mirrors.yaml")) = Some "/recipe/mirrors.yaml" /\
  mirror_source (Mirror_init (Some [("enable", PBool false)])
                   (Some "/recipe/mirrors.yaml")) = None.
Proof.
  destruct (mirror_policy (Some "/recipe/mirrors.yaml")) as (_ & _ & H).
  destruct (H [("enable", PBool true); ("key", PStr "/x")] ltac:(discriminate))
    as (Hk & Hs & _).
  destruct (H [("enable", PBool false)] ltac:(discriminate)) as (_ & Hs' & _).
  split; [exact Hk|]. split; [exact Hs | exact Hs'].
Defined.

(** C7, as the claim states it, fails on a mirror section that is a mapping
    without keys: it is not null and has no [enable] field, yet the source
    is null, not the candidate. *)
Lemma mirror_policy_counterexample :
  Mirror_init (Some []) (Some "/recipe/mirrors.yaml") =
  {| mirror_key := PNone; mirror_source := None |} /\
  ~ (forall d source,
        lookup "enable" d = None ->
        mirror_source (Mirror_init (Some d) source) = source).
Proof.
  split; [reflexivity|].
  intro H. specialize (H [] (Some "/recipe/mirrors.yaml") eq_refl). discriminate.
Qed.

(** ** The config *)

(** C4.  What [validate_recipe_config] does on a config without a [system]
    key: the branch formats its message with the local [p], which is bound
    only when the mirror section has a key.  The call raises
    [UnboundLocalError] when [p] was never bound, and otherwise a
    [FileNotFoundError] whose message names the key file; no outcome names
    the system field. *)
Theorem validate_missing_system (isfile : pyval -> bool)
        (mirror : entry (list (string * pyval))) :
  validate_recipe_config isfile {| cfg_mirror := mirror; cfg_system := None |} =
  match mirror with
  | Missing => inl (UnboundLocalError "p")
  | PyNone => inl TypeError
  | Val m =>
      match lookup "key" m with
      | None => inl (UnboundLocalError "p")
      | Some PNone => inl TypeError
      | Some p =>
          if isfile p
          then inl (FileNotFoundError ("The  '" ++ py_str p ++ "' does not exist"))
          else inl (FileNotFoundError ("The key file '" ++ py_str p ++ "' does not exist"))
      end
  end.
Proof.
  unfold validate_recipe_config, validate_mirror, validate_system;
    cbn [cfg_mirror cfg_system].
  destruct mirror as [| |m]; try reflexivity.
  destruct (lookup "key" m) as [[|b|s]|]; try reflexivity;
    unfold path_isfile; now destruct (isfile _).
Qed.

(** The sibling branch: a [system] outside the supported ones, on a config
    that passes the mirror check, raises an error that names the system and
    the supported ones. *)
Lemma validate_unsupported_system (isfile : pyval -> bool) (config : RawConfig)
      (config' : RawConfig) (p : option pyval) (system : string) :
  validate_mirror isfile config = inr (config', p) ->
  cfg_system config = Some system ->
  system <> "hohgant" -> system <> "balfrin" ->
  validate_recipe_config isfile config =
  inl (FileNotFoundError
         ("The  system '" ++ system ++ "' must be one of hohgant or balfrin")).
Proof.
  intros Hm Hs H1 H2. unfold validate_recipe_config. rewrite Hm.
  assert (Hs' : cfg_system config' = Some system).
  { unfold validate_mirror in Hm.
    destruct (cfg_mirror config) as [| |m]; try discriminate.
    - injection Hm as <- _. exact Hs.
    - destruct (lookup "key" m) as [k|].
      + destruct (path_isfile isfile k) as [e|[|]]; try discriminate.
        injection Hm as <- _. exact Hs.
      + injection Hm as <- _. exact Hs. }
  unfold validate_system. rewrite Hs'. cbn [existsb].
  apply String.eqb_neq in H1, H2. now rewrite H1, H2.
Qed.

(** A config that passes validation has a supported system and, from then
    on, a [mirror] key. *)
Lemma validate_recipe_config_ok (isfile : pyval -> bool) (config config' : RawConfig) :
  validate_recipe_config isfile config = inr config' ->
  (cfg_system config' = Some "hohgant" \/ cfg_system config' = Some "balfrin") /\
  cfg_system config' = cfg_system config /\
  cfg_mirror config' <> Missing.
Proof.
  unfold validate_recipe_config, validate_mirror, validate_system. intro H.
  destruct (cfg_mirror config) as [| |m] eqn:Hm; try discriminate.
  - cbn [cfg_system] in H.
    destruct (cfg_system config) as [system|] eqn:Hs; [|discriminate].
    cbn [existsb] in H.
    destruct (system =? "hohgant") eqn:E1; cbn [orb negb] in H.
    + injection H as <-. apply String.eqb_eq in E1. subst. cbn. repeat split; auto.
      discriminate.
    + destruct (system =? "balfrin") eqn:E2; cbn [orb negb] in H; [|discriminate].
      injection H as <-. apply String.eqb_eq in E2. subst. cbn. repeat split; auto.
      discriminate.
  - assert (Hgen : forall p, validate_system config p = inr config' ->
                             (cfg_system config' = Some "hohgant" \/
                              cfg_system config' = Some "balfrin") /\
                             cfg_system config' = cfg_system config /\
                             cfg_mirror config' <> Missing).
    { intros p Hp. unfold validate_system in Hp.
      destruct (cfg_system config) as [system|] eqn:Hs;
        [|destruct p; discriminate].
      cbn [existsb] in Hp.
      destruct (system =? "hohgant") eqn:E1; cbn [orb negb] in Hp.
      - injection Hp as <-. apply String.eqb_eq in E1. subst.
        rewrite Hs, Hm. repeat split; auto. discriminate.
      - destruct (system =? "balfrin") eqn:E2; cbn [orb negb] in Hp; [|discriminate].
        injection Hp as <-. apply String.eqb_eq in E2. subst.
        rewrite Hs, Hm. repeat split; auto. discriminate. }
    destruct (lookup "key" m) as [k|].
    + destruct (path_isfile isfile k) as [e|[|]]; try discriminate.
      now apply (Hgen (Some k)).
    + now apply (Hgen None).
Qed.

(** * Further properties of the code *)

(** ** The package document, whatever the outcome *)

Lemma string_append_assoc (a b c : string) : (a ++ b) ++ c = a ++ (b ++ c).
Proof.
  induction a as [|x a IH]; [reflexivity|].
  cbn [append]. now rewrite IH.
Qed.

(** What the loops leave of a set: the normalised set, with one spec
    appended when the second loop expanded it. *)
Lemma expanded_cases (config : PackageSet) :
  expanded config = normalize config \/
  exists spec, mpi_is_set config = true /\ expanded config = with_spec config spec.
Proof.
  unfold expanded. pose proof (expand_set_cases config) as Hcase.
  destruct (unsupported_mpi config) as [impl|] eqn:Hu.
  - rewrite Hcase. now left.
  - destruct (mpi_is_set config) eqn:Hset.
    + destruct (supported_set_inv _ Hu Hset) as (mpi & impl & ver & d & o & Hm & Hs & Hp & Hl).
      rewrite (expand_set_supported config mpi impl ver d o Hm Hs Hp Hl).
      right. eexists. split; reflexivity.
    + rewrite (expand_set_no_mpi _ Hset). now left.
Qed.

Lemma set_extends_normalize (config : PackageSet) : set_extends config (normalize config).
Proof.
  unfold set_extends, normalize, specs_of, kept_or_none; cbn [ps_specs ps_mpi ps_gpu].
  split; [now destruct (ps_mpi config)|].
  split; [now destruct (ps_gpu config)|].
  left. now destruct (ps_specs config).
Qed.

Lemma set_extends_with_spec (config : PackageSet) (spec : string) :
  set_extends config (with_spec config spec).
Proof.
  unfold set_extends, with_spec, list_append, normalize, kept_or_none;
    cbn [ps_specs ps_mpi ps_gpu].
  split; [now destruct (ps_mpi config)|].
  split; [now destruct (ps_gpu config)|].
  right. now exists spec.
Qed.

Lemma set_extends_expanded (config : PackageSet) : set_extends config (expanded config).
Proof.
  destruct (expanded_cases config) as [-> | (spec & _ & ->)].
  - apply set_extends_normalize.
  - apply set_extends_with_spec.
Qed.

Lemma keys_present_extends (before after : PackageSet) :
  set_extends before after -> keys_present after = true.
Proof.
  unfold set_extends, keys_present, kept_or_none.
  intros (-> & -> & [-> | (spec & ->)]);
    destruct (ps_mpi before), (ps_gpu before); reflexivity.
Qed.

(** The document after a call, set by set: every set is in its place under
    its name, normalised or expanded. *)
Lemma generate_package_specs_pointwise (self : Recipe) (raw : Packages) :
  Forall2 (fun before after =>
             fst after = fst before /\ set_extends (snd before) (snd after))
          raw (fst (generate_package_specs self raw)).
Proof.
  assert (Hn : forall l : Packages,
             Forall2 (fun before after =>
                        fst after = fst before /\ set_extends (snd before) (snd after))
                     l (normalize_loop l)).
  { induction l as [|[n c] l IH]; [constructor|].
    cbn [normalize_loop map]. constructor; [|exact IH].
    split; [reflexivity | apply set_extends_normalize]. }
  assert (He : forall l : Packages,
             Forall2 (fun before after =>
                        fst after = fst before /\ set_extends (snd before) (snd after))
                     l (expanded_all l)).
  { induction l as [|[n c] l IH]; [constructor|].
    cbn [expanded_all map]. constructor; [|exact IH].
    split; [reflexivity | apply set_extends_expanded]. }
  unfold generate_package_specs.
  destruct (all_supported_dec raw) as [Hs | Hu].
  - rewrite (expand_loop_supported _ Hs). cbn [fst]. apply He.
  - destruct (first_unsupported _ Hu) as (pre & n & c & post & impl & -> & Hpre & Hc).
    rewrite (expand_loop_unsupported pre post n c impl Hpre Hc). cbn [fst].
    apply Forall2_app; [apply He | apply Hn].
Qed.

Lemma keys_present_pointwise (raw raw' : Packages) :
  Forall2 (fun before after =>
             fst after = fst before /\ set_extends (snd before) (snd after)) raw raw' ->
  Forall (fun nc => keys_present (snd nc) = true) raw'.
Proof.
  induction 1 as [|before after l l' [_ Hx] _ IH]; constructor; [|exact IH].
  exact (keys_present_extends _ _ Hx).
Qed.

(** X1.  For a packages mapping whose sets are mappings with an mpi that
    is absent, null or a string and with specs that are absent, null or a
    list: whether the call returns or raises for an unsupported mpi, every
    set of the document is left with its three keys: [specs] holds a list,
    [mpi] and [gpu] are present. *)
Theorem generate_package_specs_keys (self : Recipe) (raw : Packages) :
  Forall (fun nc => keys_present (snd nc) = true)
         (fst (generate_package_specs self raw)).
Proof.
  apply (keys_present_pointwise raw), generate_package_specs_pointwise.
Qed.

(** X2.  Resolution only ever appends.  For a packages mapping whose sets
    are mappings with an mpi that is absent, null or a string and with specs
    that are absent, null or a list, no two sets being the same object or
    sharing a specs list: whether the call returns or raises for an
    unsupported mpi, the document keeps its sets, their names and their
    order; in every set mpi and gpu hold the value they held, or [None] if
    they held none, and specs holds the declared specs, in order, with at
    most one spec after them; and when the call returns, a set has gained a
    spec exactly when its mpi is truthy. *)
Theorem generate_package_specs_appends_only (self : Recipe) (raw : Packages) :
  map fst (fst (generate_package_specs self raw)) = map fst raw /\
  Forall2 (fun before after => set_extends (snd before) (snd after))
          raw (fst (generate_package_specs self raw)) /\
  match snd (generate_package_specs self raw) with
  | inr _ =>
      Forall2 (fun before after =>
                 List.length (specs_of (snd after)) =
                 List.length (specs_of (snd before)) +
                 (if mpi_is_set (snd before) then 1 else 0))
              raw (fst (generate_package_specs self raw))
  | inl _ => True
  end.
Proof.
  pose proof (generate_package_specs_pointwise self raw) as H.
  split; [|split].
  - induction H as [|before after l l' [Hn _] _ IH]; [reflexivity|].
    cbn [map]. now rewrite Hn, IH.
  - induction H as [|before after l l' [_ Hx] _ IH]; constructor; assumption.
  - destruct (generate_package_specs self raw) as [raw' [e|self']] eqn:Hg; [exact I|].
    destruct (generate_package_specs_ok _ _ _ _ Hg) as (Hs & -> & _).
    cbn [snd fst]. clear Hg H.
    induction Hs as [|[n c] l Hc _ IH]; [constructor|].
    cbn [expanded_all map]. constructor; [|exact IH].
    cbn [snd] in *.
    destruct (mpi_is_set c) eqn:Hset.
    + destruct (expanded_gains c Hc Hset) as [spec ->].
      rewrite length_app. reflexivity.
    + unfold expanded. rewrite (expand_set_no_mpi _ Hset), specs_of_normalize. lia.
Qed.

(** X3.  For a packages mapping whose sets are mappings with an mpi that
    is absent, null or a string and with specs that are absent, null or a
    list: [generate_package_specs] raises exactly when some set of the
    document has a truthy mpi that names an implementation outside the
    table, and then the exception is [Exception("Unsupported mpi: <impl>")]
    with [impl] outside the table: after the first loop has normalised the
    sets, the second one meets no missing key and no [None] where it
    appends. *)
Theorem generate_package_specs_raises_iff (self : Recipe) (raw : Packages) :
  ((exists e, snd (generate_package_specs self raw) = inl e) <->
   Exists (fun nc => unsupported_mpi (snd nc) <> None) raw) /\
  ((exists self', snd (generate_package_specs self raw) = inr self') <->
   all_supported raw) /\
  (forall e, snd (generate_package_specs self raw) = inl e ->
             exists impl, e = Exception ("Unsupported mpi: " ++ impl) /\
                          lookup impl valid_mpi_specs = None).
Proof.
  assert (Hu : Exists (fun nc => unsupported_mpi (snd nc) <> None) raw ->
               exists impl, snd (generate_package_specs self raw) =
                            inl (Exception ("Unsupported mpi: " ++ impl)) /\
                            lookup impl valid_mpi_specs = None).
  { intro H.
    destruct (first_unsupported _ H) as (pre & n & c & post & impl & -> & Hpre & Hc).
    exists impl. unfold generate_package_specs.
    rewrite (expand_loop_unsupported pre post n c impl Hpre Hc). split; [reflexivity|].
    unfold unsupported_mpi in Hc.
    destruct (ps_mpi c) as [| |mpi]; try discriminate.
    destruct (str_truthy mpi); try discriminate.
    destruct (lookup (fst (parse_mpi mpi)) valid_mpi_specs) eqn:Hl; try discriminate.
    now injection Hc as <-. }
  assert (Hs : all_supported raw ->
               exists self', snd (generate_package_specs self raw) = inr self').
  { intro H. unfold generate_package_specs.
    rewrite (expand_loop_supported _ H). eexists. reflexivity. }
  split; [|split].
  - split; [|intro H; destruct (Hu H) as (impl & -> & _); eauto].
    intros [e He]. destruct (all_supported_dec raw) as [H | H]; [|exact H].
    destruct (Hs H) as [self' Hself]. congruence.
  - split; [|exact Hs].
    intros [self' Hself]. destruct (all_supported_dec raw) as [H | H]; [exact H|].
    destruct (Hu H) as (impl & Himpl & _). congruence.
  - intros e He. destruct (all_supported_dec raw) as [H | H].
    + destruct (Hs H) as [self' Hself]. congruence.
    + destruct (Hu H) as (impl & Himpl & Hl). exists impl.
      split; [congruence | exact Hl].
Qed.

Lemma generate_package_specs_raises_iff_witness :
  exists impl,
    Exception "Unsupported mpi: openmpi" = Exception ("Unsupported mpi: " ++ impl) /\
    lookup impl valid_mpi_specs = None.
Proof.
  exact (proj2 (proj2 (generate_package_specs_raises_iff example_recipe
                         [("prgenv", {| ps_specs := Missing; ps_mpi := Val "openmpi@4.1";
                                        ps_gpu := Missing |})]))
               (Exception "Unsupported mpi: openmpi") eq_refl).
Defined.

(** ** Whitespace in the mpi string *)

Lemma parse_mpi_strip (mpi : string) : parse_mpi (strip mpi) = parse_mpi mpi.
Proof.
  unfold parse_mpi. now rewrite strip_idempotent.
Qed.

(** X4.  Whitespace around the mpi string does not change the spec it
    stands for; but a set whose mpi is whitespace only is not skipped as a
    set with an empty mpi is: its mpi is truthy, the name parsed from it is
    empty, and the call raises [Exception("Unsupported mpi: ")]. *)
Theorem mpi_outer_whitespace (config : PackageSet) (mpi : string) :
  (forall gpu, mpi_spec (strip mpi) gpu = mpi_spec mpi gpu) /\
  (ps_mpi config = Val mpi -> mpi <> "" -> strip mpi = "" ->
   expand_set (normalize config) = inl (Exception "Unsupported mpi: ")) /\
  (ps_mpi config = Val "" -> expand_set (normalize config) = inr (normalize config)).
Proof.
  split; [|split].
  - intro gpu. unfold mpi_spec. now rewrite parse_mpi_strip.
  - intros Hm Hne Hs.
    apply (expand_set_unsupported config "").
    unfold unsupported_mpi. rewrite Hm.
    apply str_truthy_true in Hne. rewrite Hne.
    unfold parse_mpi. rewrite Hs. reflexivity.
  - intro Hm. apply expand_set_no_mpi. unfold mpi_is_set. now rewrite Hm.
Qed.

Lemma mpi_outer_whitespace_witness :
  expand_set (normalize {| ps_specs := Val ["hdf5"]; ps_mpi := Val "   ";
                           ps_gpu := Missing |}) =
  inl (Exception "Unsupported mpi: ").
Proof.
  refine (proj1 (proj2 (mpi_outer_whitespace
                          {| ps_specs := Val ["hdf5"]; ps_mpi := Val "   ";
                             ps_gpu := Missing |} "   ")) eq_refl _ eq_refl).
  discriminate.
Defined.

(** ** The shape of a resolved spec *)

Lemma rstrip_plain_prefix (a b : string) :
  string_forallb plain_char a = true -> rstrip (a ++ b) = a ++ rstrip b.
Proof.
  induction a as [|c a IH]; intro H; [reflexivity|].
  plain_head H Hspace Hsep Htail.
  change (String c a ++ b) with (String c (a ++ b)).
  rewrite (rstrip_cons _ _ Hspace). cbn [append]. now rewrite IH.
Qed.

Lemma rstrip_append_nonempty (a b : string) :
  rstrip b <> "" -> rstrip (a ++ b) = a ++ rstrip b.
Proof.
  intro Hb. induction a as [|c a IH]; [reflexivity|].
  change (String c a ++ b) with (String c (a ++ b)).
  rewrite rstrip_cons_nonempty; rewrite IH; [reflexivity|].
  destruct a; cbn [append]; [exact Hb | discriminate].
Qed.

Lemma prefix_self_append (a b : string) : String.prefix a (a ++ b) = true.
Proof.
  induction a as [|c a IH]; [now destruct b|].
  cbn [append String.prefix]. now destruct (ascii_dec c c).
Qed.

(** The composed spec starts with the name and goes on with what is left of
    the clause and the options once trailing whitespace is removed. *)
Lemma compose_spec_plain (impl clause : string) (o : option string) :
  plain_name impl = true ->
  compose_spec impl clause o = impl ++ rstrip (clause ++ " " ++ options_or_empty o).
Proof.
  intro Hp. unfold compose_spec, strip. rewrite (lstrip_plain _ _ Hp).
  unfold plain_name in Hp. apply andb_prop in Hp as [_ Hp].
  now apply rstrip_plain_prefix.
Qed.

(** X5.  The spec resolved for a set whose mpi names an implementation of
    the table starts with the implementation name, is not empty and has no
    whitespace around it, with or without the cuda clause. *)
Theorem resolved_spec_shape (config : PackageSet) (mpi impl : string)
        (ver d o : option string) :
  ps_mpi config = Val mpi ->
  parse_mpi mpi = (impl, ver) ->
  lookup impl valid_mpi_specs = Some (d, o) ->
  exists spec,
    expand_set (normalize config) = inr (with_spec config spec) /\
    startswith spec impl = true /\
    spec <> "" /\
    strip spec = spec.
Proof.
  intros Hm Hp Hl.
  pose proof (valid_mpi_plain _ _ Hl) as Hplain.
  eexists. split.
  { exact (expand_set_supported config mpi impl ver d o Hm
             (supported_mpi_truthy _ _ _ _ Hp Hl) Hp Hl). }
  rewrite (compose_spec_plain _ _ _ Hplain), string_append_assoc.
  split; [|split].
  - unfold startswith. apply prefix_self_append.
  - intro H. unfold plain_name in Hplain. destruct impl; discriminate.
  - unfold strip. rewrite (lstrip_plain _ _ Hplain).
    pose proof Hplain as Hp'. unfold plain_name in Hp'. apply andb_prop in Hp' as [_ Hp'].
    rewrite (rstrip_plain_prefix _ _ Hp'). f_equal.
    unfold cuda_clause.
    destruct (gpu_truthy (ps_gpu config) && negb (impl =? "cray-mpich-binary")).
    + now rewrite rstrip_append_nonempty by discriminate.
    + rewrite append_empty_r. apply rstrip_idempotent.
Qed.

Lemma resolved_spec_shape_witness :
  exists spec,
    expand_set (normalize {| ps_specs := Val ["hdf5"]; ps_mpi := Val " mvapich2@2.3 ";
                             ps_gpu := Val (PBool true) |}) =
    inr (with_spec {| ps_specs := Val ["hdf5"]; ps_mpi := Val " mvapich2@2.3 ";
                      ps_gpu := Val (PBool true) |} spec) /\
    startswith spec "mvapich2" = true /\ spec <> "" /\ strip spec = spec.
Proof.
  exact (resolved_spec_shape
           {| ps_specs := Val ["hdf5"]; ps_mpi := Val " mvapich2@2.3 ";
              ps_gpu := Val (PBool true) |}
           " mvapich2@2.3 " "mvapich2" (Some "2.3") (Some "3.0a")
           (Some "+xpmem fabrics=ch4ofi ch4_max_vcis=4 process_managers=slurm")
           eq_refl eq_refl eq_refl).
Defined.

(** ** The compilers document: errors and stages *)

(** X6.  For a raw input that is a mapping whose stages, where present, are
    mappings in which specs, where present, is a list of strings (not
    null): [generate_compiler_specs] returns exactly when the raw input has a
    bootstrap stage declaring at least one spec, a gcc stage with specs and,
    if there is an llvm stage, its specs and requires.  Otherwise it raises
    [KeyError] for bootstrap, specs, gcc or requires, or [IndexError], which
    it raises exactly for a bootstrap stage with an empty list of specs; a
    missing bootstrap stage is reported whatever else is wrong, and a
    missing gcc stage whenever bootstrap declares a spec. *)
Theorem generate_compiler_specs_returns_iff (self : Recipe) (raw : RawCompilers) :
  ((exists self', generate_compiler_specs self raw = inr self') <->
   compilers_wf raw = true) /\
  (forall e, generate_compiler_specs self raw = inl e ->
             e = KeyError "bootstrap" \/ e = KeyError "specs" \/ e = IndexError \/
             e = KeyError "gcc" \/ e = KeyError "requires") /\
  (generate_compiler_specs self raw = inl IndexError <->
   exists b, raw_bootstrap raw = Some b /\ raw_specs b = Some []) /\
  (raw_bootstrap raw = None ->
   generate_compiler_specs self raw = inl (KeyError "bootstrap")) /\
  (forall b s rest, raw_bootstrap raw = Some b -> raw_specs b = Some (s :: rest) ->
                    raw_gcc raw = None ->
                    generate_compiler_specs self raw = inl (KeyError "gcc")).
Proof.
  unfold generate_compiler_specs, resolve_compilers, resolve_llvm, compilers_wf, llvm_ok.
  destruct raw as [[[bs br]|] [[gs gr]|] [[ls lr]|]];
    cbn [raw_bootstrap raw_gcc raw_llvm raw_specs raw_requires getitem bind first_item];
    try destruct bs as [[|s rest]|];
    try destruct gs as [gs|];
    try destruct ls as [ls|];
    try destruct lr as [lr|];
    cbn [raw_bootstrap raw_gcc raw_llvm raw_specs raw_requires getitem bind first_item].
  all: repeat split.
  all: try (intros [x Hx]; discriminate).
  all: try (intros; discriminate).
  all: try (intro; eexists; reflexivity).
  all: try (intros e [= <-]; tauto).
  all: try (intros (b & [= <-] & Hb); discriminate).
  all: try reflexivity.
  all: try (intros _; eexists; split; reflexivity).
  all: try (intros (b & Hb & _); discriminate).
  all: intros b s rest [= <-] Hb; discriminate.
Qed.

Lemma generate_compiler_specs_returns_iff_witness :
  generate_compiler_specs example_recipe
    {| raw_bootstrap := Some {| raw_specs := Some []; raw_requires := None |};
       raw_gcc := None; raw_llvm := None |} = inl IndexError.
Proof.
  apply (proj2 (proj1 (proj2 (proj2 (generate_compiler_specs_returns_iff example_recipe
           {| raw_bootstrap := Some {| raw_specs := Some []; raw_requires := None |};
              raw_gcc := None; raw_llvm := None |}))))).
  eexists. split; reflexivity.
Defined.

Lemma release_compilers_no_bootstrap (all : list string) :
  ~ In "bootstrap" (release_compilers all).
Proof.
  unfold release_compilers. intro H. apply filter_In in H as [_ H]. discriminate.
Qed.

(** X7.  The stages of a resolved plan, in order, are bootstrap, gcc and,
    when the raw input has an llvm stage, llvm; the release compilers that
    [Build.generate] hands to the makefile are these without bootstrap, so
    gcc is always one of them and bootstrap never. *)
Theorem resolved_stage_names (self self' : Recipe) (raw : RawCompilers) :
  generate_compiler_specs self raw = inr self' ->
  all_compilers (self_compilers self') =
    ("bootstrap" :: "gcc" :: match raw_llvm raw with Some _ => ["llvm"] | None => [] end) /\
  release_compilers (all_compilers (self_compilers self')) =
    ("gcc" :: match raw_llvm raw with Some _ => ["llvm"] | None => [] end) /\
  ~ In "bootstrap" (release_compilers (all_compilers (self_compilers self'))).
Proof.
  intro H. split; [|split]; [| |apply release_compilers_no_bootstrap].
  all: unfold generate_compiler_specs, resolve_compilers, resolve_llvm, bind in H.
  all: destruct (getitem "bootstrap" (raw_bootstrap raw)) as [e|b]; [discriminate|].
  all: destruct (getitem "specs" (raw_specs b)) as [e|bs]; [discriminate|].
  all: destruct (first_item bs) as [e|s]; [discriminate|].
  all: destruct (getitem "gcc" (raw_gcc raw)) as [e|g]; [discriminate|].
  all: destruct (getitem "specs" (raw_specs g)) as [e|gs]; [discriminate|].
  all: destruct (raw_llvm raw) as [l|].
  all: try (destruct (getitem "specs" (raw_specs l)) as [e|ls]; [discriminate|]).
  all: try (destruct (getitem "requires" (raw_requires l)) as [e|lr]; [discriminate|]).
  all: injection H as <-; reflexivity.
Qed.

Lemma resolved_stage_names_witness :
  release_compilers
    (all_compilers
       (self_compilers
          (returned example_recipe
             (generate_compiler_specs example_recipe example_compilers)))) =
  ["gcc"; "llvm"].
Proof.
  exact (proj1 (proj2 (resolved_stage_names example_recipe _ example_compilers eq_refl))).
Defined.

(** X8.  Compiler resolution passes through what it does not expand: the
    gcc stage carries the declared gcc specs and the llvm stage the declared
    requires, both as written; the bootstrap stage has no requires and the
    llvm stage no package settings; without an llvm stage in the raw input
    there is none in the plan; and [self.packages] is left as it was. *)
Theorem resolved_stage_passthrough (self self' : Recipe) (raw : RawCompilers) :
  generate_compiler_specs self raw = inr self' ->
  self_packages self' = self_packages self /\
  (exists bootstrap gcc g,
      lookup "bootstrap" (self_compilers self') = Some bootstrap /\
      st_requires bootstrap = None /\
      st_packages bootstrap = Some bootstrap_packages /\
      lookup "gcc" (self_compilers self') = Some gcc /\
      raw_gcc raw = Some g /\
      raw_specs g = Some (st_specs gcc) /\
      st_packages gcc = Some gcc_packages) /\
  match raw_llvm raw with
  | Some l =>
      exists llvm,
        lookup "llvm" (self_compilers self') = Some llvm /\
        raw_requires l = st_requires llvm /\
        st_packages llvm = None
  | None => lookup "llvm" (self_compilers self') = None
  end.
Proof.
  intro H.
  unfold generate_compiler_specs, resolve_compilers, resolve_llvm, bind in H.
  destruct (raw_bootstrap raw) as [b|]; [|discriminate]. cbn [getitem] in H.
  destruct (raw_specs b) as [bs|]; [|discriminate]. cbn [getitem] in H.
  destruct (first_item bs) as [e|s]; [discriminate|].
  destruct (raw_gcc raw) as [g|]; [|discriminate]. cbn [getitem] in H.
  destruct (raw_specs g) as [gs|] eqn:Hgs; [|discriminate]. cbn [getitem] in H.
  destruct (raw_llvm raw) as [l|].
  - destruct (raw_specs l) as [ls|]; [|discriminate]. cbn [getitem] in H.
    destruct (raw_requires l) as [lr|]; [|discriminate]. cbn [getitem] in H.
    injection H as <-. cbn [self_packages self_compilers].
    split; [reflexivity|]. split.
    + do 3 eexists. repeat split; try reflexivity. exact Hgs.
    + eexists. repeat split.
  - injection H as <-. cbn [self_packages self_compilers].
    split; [reflexivity|]. split; [|reflexivity].
    do 3 eexists. repeat split; try reflexivity. exact Hgs.
Qed.

Lemma resolved_stage_passthrough_witness :
  exists llvm,
    lookup "llvm" (self_compilers
                     (returned example_recipe
                        (generate_compiler_specs example_recipe example_compilers)))
    = Some llvm /\
    st_requires llvm = Some "gcc@11.3".
Proof.
  destruct (resolved_stage_passthrough example_recipe _ example_compilers eq_refl)
    as (_ & _ & llvm & Hl & Hr & _).
  exists llvm. split; [exact Hl | symmetry; exact Hr].
Defined.

(** ** The llvm specs: one for one *)

Lemma llvm_prefixes_exclusive (spec : string) :
  startswith spec "nvhpc" = true -> startswith spec "llvm" = false.
Proof.
  unfold startswith. destruct spec as [|c spec]; [discriminate|].
  cbn [String.prefix].
  destruct (ascii_dec "n" c) as [<-|]; [reflexivity | discriminate].
Qed.

Lemma llvm_resolved_one (spec : string) :
  llvm_kept spec = true -> llvm_resolved spec = [llvm_suffixed spec].
Proof.
  unfold llvm_kept, llvm_resolved, llvm_suffixed. intro H.
  destruct (startswith spec "nvhpc") eqn:Hn.
  - now rewrite (llvm_prefixes_exclusive _ Hn).
  - cbn [orb] in H. now rewrite H.
Qed.

(** X9.  Although the two prefix tests of the llvm loop are independent, no
    declared spec yields two resolved specs: the resolved llvm specs are
    the declared specs that begin with [nvhpc] or [llvm], in their order,
    each with its suffix, so there are as many of them as such declared
    specs and never more than declared specs. *)
Theorem llvm_specs_one_for_one (declared : list string) :
  llvm_specs declared = map llvm_suffixed (filter llvm_kept declared) /\
  List.length (llvm_specs declared) = List.length (filter llvm_kept declared) /\
  List.length (llvm_specs declared) <= List.length declared /\
  (forall more, llvm_specs (declared ++ more) =
                (llvm_specs declared ++ llvm_specs more)%list).
Proof.
  assert (H : llvm_specs declared = map llvm_suffixed (filter llvm_kept declared)).
  { rewrite llvm_specs_flat_map.
    induction declared as [|spec declared IH]; [reflexivity|].
    cbn [flat_map filter]. destruct (llvm_kept spec) eqn:Hk.
    - rewrite (llvm_resolved_one _ Hk), IH. reflexivity.
    - rewrite (llvm_resolved_dropped _ Hk), IH. reflexivity. }
  split; [exact H|]. split; [|split].
  - now rewrite H, length_map.
  - rewrite H, length_map. apply filter_length_le.
  - intro more. rewrite !llvm_specs_flat_map. apply flat_map_app.
Qed.

(** ** Validation *)

Lemma validate_mirror_valid (isfile : pyval -> bool) (config : RawConfig) :
  mirror_valid isfile config = true ->
  exists p, validate_mirror isfile config = inr (with_mirror_key config, p).
Proof.
  unfold mirror_valid, validate_mirror, with_mirror_key, path_isfile.
  destruct config as [m sys]; cbn [cfg_mirror cfg_system].
  destruct m as [| |m]; try discriminate.
  - intros _. eexists. reflexivity.
  - destruct (lookup "key" m) as [[|b|k]|]; try discriminate.
    + intros ->. eexists. reflexivity.
    + intros ->. eexists. reflexivity.
    + intros _. eexists. reflexivity.
Qed.

Lemma validate_mirror_invalid (isfile : pyval -> bool) (config : RawConfig) :
  mirror_valid isfile config = false ->
  exists e, validate_mirror isfile config = inl e.
Proof.
  unfold mirror_valid, validate_mirror, path_isfile.
  destruct (cfg_mirror config) as [| |m]; try discriminate.
  - intros _. eexists. reflexivity.
  - destruct (lookup "key" m) as [[|b|k]|]; try discriminate.
    + intros _. eexists. reflexivity.
    + intros ->. eexists. reflexivity.
    + intros ->. eexists. reflexivity.
Qed.

Lemma validate_system_valid (config : RawConfig) (p : option pyval) :
  system_valid config = true -> validate_system config p = inr config.
Proof.
  unfold system_valid, validate_system.
  destruct (cfg_system config) as [system|]; [|discriminate].
  cbn [existsb]. rewrite orb_false_r. now intros ->.
Qed.

Lemma validate_system_invalid (config : RawConfig) (p : option pyval) :
  system_valid config = false -> exists e, validate_system config p = inl e.
Proof.
  unfold system_valid, validate_system.
  destruct (cfg_system config) as [system|].
  - cbn [existsb]. rewrite orb_false_r. intros ->. eexists. reflexivity.
  - intros _. destruct p; eexists; reflexivity.
Qed.

(** When validation returns, and what. *)
Lemma validate_recipe_config_spec (isfile : pyval -> bool)
      (config config' : RawConfig) :
  validate_recipe_config isfile config = inr config' <->
  mirror_valid isfile config = true /\ system_valid config = true /\
  config' = with_mirror_key config.
Proof.
  unfold validate_recipe_config. split.
  - intro H. destruct (mirror_valid isfile config) eqn:Hm.
    + destruct (validate_mirror_valid _ _ Hm) as [p Hp]. rewrite Hp in H.
      destruct (system_valid config) eqn:Hs.
      * rewrite validate_system_valid in H by exact Hs. now injection H as <-.
      * destruct (validate_system_invalid (with_mirror_key config) p Hs) as [e He].
        congruence.
    + destruct (validate_mirror_invalid _ _ Hm) as [e He]. rewrite He in H.
      discriminate.
  - intros (Hm & Hs & ->).
    destruct (validate_mirror_valid _ _ Hm) as [p ->].
    now apply validate_system_valid.
Qed.

(** X10.  For a config that is a mapping whose mirror section, where
    present, is null or a mapping (not a scalar or a list) and whose system,
    where present, is a string: [validate_recipe_config] returns exactly
    when the system is hohgant or balfrin and the mirror section is absent
    or is a mapping (not null) whose key, if it has one, is not null and
    names an existing file; and what it returns is the config it was given,
    changed in one place at most: a [mirror] key holding [None] is written
    when there was none. *)
Theorem validate_recipe_config_returns_iff (isfile : pyval -> bool)
        (config config' : RawConfig) :
  validate_recipe_config isfile config = inr config' <->
  mirror_valid isfile config = true /\ system_valid config = true /\
  config' = with_mirror_key config.
Proof.
  split.
  - intro H. now apply validate_recipe_config_spec in H.
  - intro H. now apply validate_recipe_config_spec.
Qed.

Lemma validate_recipe_config_returns_iff_witness :
  validate_recipe_config (fun _ => true)
    {| cfg_mirror := Missing; cfg_system := Some "balfrin" |} =
  inr {| cfg_mirror := PyNone; cfg_system := Some "balfrin" |}.
Proof.
  apply (proj2 (validate_recipe_config_returns_iff (fun _ => true)
                  {| cfg_mirror := Missing; cfg_system := Some "balfrin" |}
                  {| cfg_mirror := PyNone; cfg_system := Some "balfrin" |})).
  repeat split.
Defined.

(** X11.  Validating twice.  A config that [validate_recipe_config]
    returned is returned unchanged when it is validated again, provided it
    came with a mirror section; when it came without one, validation wrote
    [None] under [mirror], and validating the returned config raises
    [TypeError], since [None] is not a mapping to look a key up in. *)
Theorem validate_recipe_config_again (isfile : pyval -> bool)
        (config config' : RawConfig) :
  validate_recipe_config isfile config = inr config' ->
  (cfg_mirror config = Missing ->
   validate_recipe_config isfile config' = inl TypeError) /\
  (cfg_mirror config <> Missing ->
   validate_recipe_config isfile config' = inr config').
Proof.
  intro H. apply validate_recipe_config_spec in H as (Hm & Hs & ->).
  split.
  - intro Hmiss. unfold validate_recipe_config, validate_mirror, with_mirror_key;
      cbn [cfg_mirror]. now rewrite Hmiss.
  - intro Hpresent. apply validate_recipe_config_spec.
    unfold mirror_valid, system_valid, with_mirror_key in *; cbn [cfg_mirror cfg_system].
    destruct (cfg_mirror config) as [| |m]; try discriminate; try congruence.
    repeat split; assumption.
Qed.

Lemma validate_recipe_config_again_witness :
  validate_recipe_config (fun _ => true)
    {| cfg_mirror := PyNone; cfg_system := Some "balfrin" |} = inl TypeError /\
  validate_recipe_config (fun _ => true)
    {| cfg_mirror := Val [("key", PStr "/keys/sign.key")]; cfg_system := Some "hohgant" |} =
  inr {| cfg_mirror := Val [("key", PStr "/keys/sign.key")]; cfg_system := Some "hohgant" |}.
Proof.
  split.
  - exact (proj1 (validate_recipe_config_again (fun _ => true)
                    {| cfg_mirror := Missing; cfg_system := Some "balfrin" |} _ eq_refl)
                 eq_refl).
  - refine (proj2 (validate_recipe_config_again (fun _ => true)
                     {| cfg_mirror := Val [("key", PStr "/keys/sign.key")];
                        cfg_system := Some "hohgant" |} _ eq_refl) _).
    discriminate.
Defined.

(** The key file is checked first: when the mirror section names a key file
    that does not exist, validation raises the key-file error whatever the
    system is. *)
Lemma validate_key_file_first (isfile : pyval -> bool) (config : RawConfig)
      (m : list (string * pyval)) (p : pyval) :
  cfg_mirror config = Val m ->
  lookup "key" m = Some p ->
  p <> PNone ->
  isfile p = false ->
  validate_recipe_config isfile config =
  inl (FileNotFoundError ("The key file '" ++ py_str p ++ "' does not exist")).
Proof.
  intros Hm Hk Hp Hf.
  unfold validate_recipe_config, validate_mirror, path_isfile.
  rewrite Hm, Hk. destruct p as [|b|k]; [congruence| |]; now rewrite Hf.
Qed.

(** ** Paths *)

Lemma path_join_relative (a b : string) :
  isabs b = false -> path_join a b = a ++ path_sep a ++ b.
Proof.
  unfold isabs, path_join, path_sep. intros ->.
  now destruct (negb (str_truthy a) || endswith a "/").
Qed.

Lemma path_join_absolute (a b : string) : isabs b = true -> path_join a b = b.
Proof.
  unfold isabs, path_join. now intros ->.
Qed.

Lemma isabs_append (a b : string) : isabs a = true -> isabs (a ++ b) = true.
Proof.
  unfold isabs, startswith. apply prefix_append.
Qed.

Lemma append_nonempty_r (a b : string) : b <> "" -> a ++ b <> "".
Proof.
  destruct a; cbn [append]; [auto | discriminate].
Qed.

Lemma endswith_sep_append (a b : string) :
  b <> "" -> endswith (a ++ b) "/" = endswith b "/".
Proof.
  intro Hb. induction a as [|c a IH]; [reflexivity|].
  change (String c a ++ b) with (String c (a ++ b)).
  cbn [endswith]. rewrite IH.
  assert (Hne : (String c (a ++ b) =? "/") = false).
  { apply String.eqb_neq. intros [= _ H]. now apply (append_nonempty_r a b Hb). }
  now rewrite Hne.
Qed.

(** Joining onto a path that ends in a name puts one separator in
    between. *)
Lemma path_join_onto (a b c : string) :
  b <> "" -> endswith b "/" = false -> isabs c = false ->
  path_join (a ++ b) c = a ++ b ++ "/" ++ c.
Proof.
  intros Hb He Hc. rewrite (path_join_relative _ _ Hc). unfold path_sep.
  rewrite (endswith_sep_append _ _ Hb), He.
  pose proof (append_nonempty_r a b Hb) as Hne. apply str_truthy_true in Hne.
  rewrite Hne. cbn [negb orb]. now rewrite string_append_assoc.
Qed.

Lemma append_cancel_l (a x y : string) : a ++ x = a ++ y -> x = y.
Proof.
  induction a as [|c a IH]; cbn [append]; [auto|].
  intros [= H]. now apply IH.
Qed.

(** Joining two relative names onto the same path gives the same path only
    for the same name. *)
Lemma path_join_injective (a x y : string) :
  isabs x = false -> isabs y = false -> path_join a x = path_join a y -> x = y.
Proof.
  intros Hx Hy. rewrite (path_join_relative _ _ Hx), (path_join_relative _ _ Hy).
  intro H. now apply append_cancel_l, append_cancel_l in H.
Qed.

(** X13.  [Build.__init__] keeps an absolute build path as given and takes
    a relative one from the current directory, so that the path it stores
    is absolute; it raises [IOError] exactly when that path exists and is
    not a directory, so a stored path is a directory or does not exist
    yet. *)
Theorem Build_init_path (exists_ isdir : string -> bool) (cwd root : string) (args : Args) :
  isabs cwd = true ->
  (forall self, Build_init exists_ isdir cwd root args = inr self ->
                isabs (build_path self) = true /\
                (isabs (args_build args) = true -> build_path self = args_build args) /\
                (isabs (args_build args) = false ->
                 build_path self = cwd ++ path_sep cwd ++ args_build args) /\
                (exists_ (build_path self) = true -> isdir (build_path self) = true) /\
                build_root self = root) /\
  (forall e, Build_init exists_ isdir cwd root args = inl e ->
             e = IOError "build path is not a directory" /\
             exists_ (resolve_path cwd (args_build args)) = true /\
             isdir (resolve_path cwd (args_build args)) = false) /\
  resolve_path cwd (resolve_path cwd (args_build args)) = resolve_path cwd (args_build args).
Proof.
  intro Hcwd.
  assert (Habs : isabs (resolve_path cwd (args_build args)) = true).
  { unfold resolve_path. destruct (isabs (args_build args)) eqn:Ha; cbn [negb]; [exact Ha|].
    rewrite (path_join_relative _ _ Ha). now apply isabs_append. }
  unfold Build_init. split; [|split].
  - intros self H.
    destruct (exists_ (resolve_path cwd (args_build args))) eqn:He;
      destruct (isdir (resolve_path cwd (args_build args))) eqn:Hd;
      cbn [andb negb] in H; try discriminate; injection H as <-;
      cbn [build_path build_root]; repeat split; try assumption; try congruence.
    all: unfold resolve_path; try (intros ->; reflexivity).
    all: intros Ha; rewrite Ha; cbn [negb]; now apply path_join_relative.
  - intros e H.
    destruct (exists_ (resolve_path cwd (args_build args))) eqn:He;
      destruct (isdir (resolve_path cwd (args_build args))) eqn:Hd;
      cbn [andb negb] in H; try discriminate.
    injection H as <-. auto.
  - unfold resolve_path at 1. now rewrite Habs.
Qed.

Lemma Build_init_path_witness :
  Build_init (fun _ => false) (fun _ => false) "/home/user" "/opt/sstool"
    {| args_build := "build"; args_recipe := "recipe"; args_debug := false |} =
  inr {| build_path := "/home/user/build"; build_root := "/opt/sstool" |} /\
  isabs "/home/user/build" = true.
Proof.
  split; [reflexivity|].
  exact (proj1 (proj1 (Build_init_path (fun _ => false) (fun _ => false)
                         "/home/user" "/opt/sstool"
                         {| args_build := "build"; args_recipe := "recipe";
                            args_debug := false |} eq_refl)
                      _ eq_refl)).
Defined.

Lemma system_valid_cases (config : RawConfig) (system : string) :
  system_valid config = true -> cfg_system config = Some system ->
  system = "hohgant" \/ system = "balfrin".
Proof.
  unfold system_valid. intros H Hs. rewrite Hs in H.
  apply orb_prop in H as [H | H]; apply String.eqb_eq in H; auto.
Qed.

(** X14.  For a config that validation returned, the system configuration
    directory is [share/cluster-config/<system>] under the installation
    root.  It is validation that keeps it there: [configs_path] by itself
    returns an absolute system name as it is, whatever the root. *)
Theorem configs_path_under_root (isfile : pyval -> bool) (config config' : RawConfig)
        (root system : string) :
  validate_recipe_config isfile config = inr config' ->
  cfg_system config' = Some system ->
  configs_path root system = root ++ path_sep root ++ "share/cluster-config/" ++ system /\
  startswith (configs_path root system) root = true /\
  endswith (configs_path root system) ("/" ++ system) = true /\
  (forall absolute, isabs absolute = true -> configs_path root absolute = absolute).
Proof.
  intros H Hsys. apply validate_recipe_config_spec in H as (_ & Hs & ->).
  cbn [with_mirror_key cfg_system] in Hsys.
  assert (Hrel : isabs system = false).
  { destruct (system_valid_cases _ _ Hs Hsys) as [-> | ->]; reflexivity. }
  assert (Hpath : configs_path root system =
                  root ++ path_sep root ++ "share/cluster-config/" ++ system).
  { unfold configs_path.
    rewrite (path_join_relative root "share") by reflexivity.
    rewrite <- string_append_assoc.
    rewrite (path_join_onto (root ++ path_sep root) "share" "cluster-config")
      by (try discriminate; reflexivity).
    rewrite <- !string_append_assoc.
    rewrite (path_join_onto _ "cluster-config" system) by (try discriminate; auto).
    rewrite !string_append_assoc. reflexivity. }
  split; [exact Hpath|]. split; [|split].
  - rewrite Hpath. unfold startswith. apply prefix_self_append.
  - rewrite Hpath.
    replace (root ++ path_sep root ++ "share/cluster-config/" ++ system)
      with ((root ++ path_sep root ++ "share/cluster-config") ++ ("/" ++ system)).
    + apply endswith_append.
    + now rewrite !string_append_assoc.
  - intros absolute Ha. unfold configs_path. now apply path_join_absolute.
Qed.

Lemma configs_path_under_root_witness :
  configs_path "/opt/sstool" "hohgant" = "/opt/sstool/share/cluster-config/hohgant".
Proof.
  exact (proj1 (configs_path_under_root (fun _ => true)
                  {| cfg_mirror := Missing; cfg_system := Some "hohgant" |} _
                  "/opt/sstool" "hohgant" eq_refl eq_refl)).
Defined.

(** ** The constructed recipe *)

Section RecipeInitProperties.

Variable isdir : string -> bool.
Variable isfile : pyval -> bool.
Variable load_compilers : string -> option RawCompilers.
Variable load_packages : string -> option Packages.
Variable load_config : string -> RawConfig.
Variable cwd : string.
Variable root : string.

(** What a [Recipe.__init__] that returned has gone through. *)
Lemma Recipe_init_returned (args : Args) (obj : RecipeObject) :
  Recipe_init isdir isfile load_compilers load_packages load_config cwd root args = inr obj ->
  let path := resolve_path cwd (args_recipe args) in
  isdir path = true /\
  isfile (PStr (path_join path "compilers.yaml")) = true /\
  isfile (PStr (path_join path "packages.yaml")) = true /\
  isfile (PStr (path_join path "config.yaml")) = true /\
  exists raw_compilers self1 raw_packages packages self2 config source mirror_config,
    load_compilers (path_join path "compilers.yaml") = Some raw_compilers /\
    generate_compiler_specs {| self_compilers := []; self_packages := None |} raw_compilers
    = inr self1 /\
    load_packages (path_join path "packages.yaml") = Some raw_packages /\
    generate_package_specs self1 raw_packages = (packages, inr self2) /\
    validate_recipe_config isfile (load_config (path_join path "config.yaml")) = inr config /\
    select_mirrors_source isfile root path config = inr source /\
    config_mirror config = inr mirror_config /\
    obj = {| obj_path := path;
             obj_root := root;
             obj_resolved := self2;
             obj_config := config;
             obj_modules := select_modules isfile path (args_build args);
             obj_mirror := Mirror_init mirror_config source |}.
Proof.
  intros H path. unfold Recipe_init in H. fold path in H.
  destruct (isdir path) eqn:Hd; cbn [negb] in H; [|discriminate].
  destruct (isfile (PStr (path_join path "compilers.yaml"))) eqn:Hc;
    cbn [negb] in H; [|discriminate].
  destruct (load_compilers (path_join path "compilers.yaml")) as [rc|] eqn:Hlc;
    cbn [getitem bind] in H; [|discriminate].
  destruct (generate_compiler_specs _ rc) as [e|self1] eqn:Hg; cbn [bind] in H;
    [discriminate|].
  destruct (isfile (PStr (path_join path "packages.yaml"))) eqn:Hp;
    cbn [negb] in H; [|discriminate].
  destruct (load_packages (path_join path "packages.yaml")) as [rp|] eqn:Hlp;
    cbn [getitem bind] in H; [|discriminate].
  destruct (generate_package_specs self1 rp) as [packages [e|self2]] eqn:Hgp;
    cbn [snd bind] in H; [discriminate|].
  destruct (isfile (PStr (path_join path "config.yaml"))) eqn:Hf;
    cbn [negb] in H; [|discriminate].
  destruct (validate_recipe_config isfile (load_config (path_join path "config.yaml")))
    as [e|config] eqn:Hv; cbn [bind] in H; [discriminate|].
  destruct (select_mirrors_source isfile root path config) as [e|source] eqn:Hs;
    cbn [bind] in H; [discriminate|].
  destruct (config_mirror config) as [e|mirror_config] eqn:Hm; cbn [bind] in H;
    [discriminate|].
  injection H as <-.
  repeat split; try reflexivity.
  exists rc, self1, rp, packages, self2, config, source, mirror_config.
  repeat split; assumption.
Qed.

(** The mirrors file that is selected exists, and is the recipe's own or,
    when the recipe has none, the one of the system configuration. *)
Lemma select_mirrors_source_some (path : string) (config : RawConfig) (source : string) :
  select_mirrors_source isfile root path config = inr (Some source) ->
  isfile (PStr source) = true /\
  (source = path_join path "mirrors.yaml" \/
   (isfile (PStr (path_join path "mirrors.yaml")) = false /\
    exists system, cfg_system config = Some system /\
                   source = path_join (configs_path root system) "mirrors.yaml")).
Proof.
  unfold select_mirrors_source.
  destruct (isfile (PStr (path_join path "mirrors.yaml"))) eqn:H1.
  - intros [= <-]. auto.
  - destruct (cfg_system config) as [system|]; cbn [getitem bind]; [|discriminate].
    destruct (isfile (PStr (path_join (configs_path root system) "mirrors.yaml"))) eqn:H2;
      [|discriminate].
    intros [= <-]. split; [exact H2|]. right. split; [reflexivity|]. now exists system.
Qed.

(** The key of the mirror built from a validated config: none, or a file
    that exists. *)
Lemma validated_mirror_key (config config' : RawConfig)
      (mirror_config : option (list (string * pyval))) (source : option string) :
  validate_recipe_config isfile config = inr config' ->
  config_mirror config' = inr mirror_config ->
  mirror_key (Mirror_init mirror_config source) <> PNone ->
  isfile (mirror_key (Mirror_init mirror_config source)) = true.
Proof.
  intros Hv Hm Hk. apply validate_recipe_config_spec in Hv as (Hvalid & _ & ->).
  unfold config_mirror, with_mirror_key in Hm; cbn [cfg_mirror] in Hm.
  unfold mirror_valid in Hvalid.
  destruct (cfg_mirror config) as [| |d]; try discriminate.
  - injection Hm as <-. now cbn in Hk.
  - injection Hm as <-. unfold Mirror_init in *.
    destruct (dict_truthy d); cbn [mirror_key] in *; [|congruence].
    unfold dict_get in *.
    destruct (lookup "key" d) as [[|b|k]|]; try discriminate; try congruence; exact Hvalid.
Qed.

(** X15.  The mirror of a constructed recipe.  Its source, when there is
    one, is a mirrors file that exists: the recipe's own or, only when the
    recipe has none, the one of the system configuration; and then the
    config has a mirror section whose enable value is truthy or absent.
    Its key, when there is one, is a file that exists.  So the value that the
    makefile templates get as [push_to_cache] is truthy only when both the
    mirrors file and the key file exist. *)
Theorem Recipe_init_mirror (args : Args) (obj : RecipeObject) :
  Recipe_init isdir isfile load_compilers load_packages load_config cwd root args = inr obj ->
  (forall source,
      mirror_source (obj_mirror obj) = Some source ->
      isfile (PStr source) = true /\
      (source = path_join (obj_path obj) "mirrors.yaml" \/
       (isfile (PStr (path_join (obj_path obj) "mirrors.yaml")) = false /\
        exists system, cfg_system (obj_config obj) = Some system /\
                       source = path_join (configs_path root system) "mirrors.yaml")) /\
      exists d, cfg_mirror (obj_config obj) = Val d /\ d <> [] /\
                truthy (dict_get d "enable" (PBool true)) = true) /\
  (mirror_key (obj_mirror obj) <> PNone -> isfile (mirror_key (obj_mirror obj)) = true) /\
  (truthy (push_to_cache (obj_mirror obj)) = true ->
   exists source, mirror_source (obj_mirror obj) = Some source /\
                  isfile (PStr source) = true /\
                  isfile (mirror_key (obj_mirror obj)) = true).
Proof.
  intro H. apply Recipe_init_returned in H.
  destruct H as (_ & _ & _ & _ & rc & self1 & rp & packages & self2 & config & source
                 & mirror_config & _ & _ & _ & _ & Hv & Hs & Hm & ->).
  cbn [obj_mirror obj_path obj_config].
  assert (Hsrc : forall p, mirror_source (Mirror_init mirror_config source) = Some p ->
                           source = Some p /\
                           exists d, cfg_mirror config = Val d /\ d <> [] /\
                                     truthy (dict_get d "enable" (PBool true)) = true).
  { intros p Hp. unfold config_mirror in Hm.
    destruct (cfg_mirror config) as [| |d]; try discriminate; injection Hm as <-;
      unfold Mirror_init in Hp; [discriminate|].
    destruct d as [|kv d]; cbn [dict_truthy mirror_source] in Hp; [discriminate|].
    destruct (truthy (dict_get (kv :: d) "enable" (PBool true))) eqn:He;
      cbn [negb] in Hp; [|discriminate].
    split; [exact Hp|]. exists (kv :: d). repeat split; [discriminate | exact He]. }
  assert (Hkey := validated_mirror_key _ _ _ source Hv Hm).
  split; [|split].
  - intros p Hp. destruct (Hsrc p Hp) as (-> & Hd).
    destruct (select_mirrors_source_some _ _ _ Hs) as (Hf & Hwhere). auto.
  - exact Hkey.
  - intro Ht. unfold push_to_cache in Ht.
    destruct (mirror_source (Mirror_init mirror_config source)) as [p|] eqn:Hp;
      [|discriminate].
    destruct (Hsrc p eq_refl) as (-> & _).
    destruct (select_mirrors_source_some _ _ _ Hs) as (Hf & _).
    exists p. split; [reflexivity|]. split; [exact Hf|].
    destruct (str_truthy p) eqn:Hsp.
    + apply Hkey. intro Hnone. rewrite Hnone in Ht. discriminate.
    + cbn [truthy] in Ht. unfold str_truthy in Hsp. congruence.
Qed.

(** X16.  No cache without a mirror section that asks for one.  A
    constructed recipe whose config came without a mirror section, with an
    empty one, or with one whose enable value is falsy, has no mirror
    source, whatever mirrors files exist, and hands a falsy [push_to_cache]
    to the templates; without a mirror section, or with an empty one, it has
    no key either. *)
Theorem Recipe_init_no_mirror (args : Args) (obj : RecipeObject) :
  Recipe_init isdir isfile load_compilers load_packages load_config cwd root args = inr obj ->
  obj_config obj =
    with_mirror_key (load_config (path_join (obj_path obj) "config.yaml")) /\
  (cfg_mirror (load_config (path_join (obj_path obj) "config.yaml")) = Missing \/
   cfg_mirror (obj_config obj) = Val [] ->
   obj_mirror obj = {| mirror_key := PNone; mirror_source := None |}) /\
  (forall d, cfg_mirror (obj_config obj) = Val d ->
             truthy (dict_get d "enable" (PBool true)) = false ->
             mirror_source (obj_mirror obj) = None) /\
  (mirror_source (obj_mirror obj) = None ->
   truthy (push_to_cache (obj_mirror obj)) = false).
Proof.
  intro H. apply Recipe_init_returned in H.
  destruct H as (_ & _ & _ & _ & rc & self1 & rp & packages & self2 & config & source
                 & mirror_config & _ & _ & _ & _ & Hv & Hs & Hm & ->).
  cbn [obj_mirror obj_path obj_config].
  apply validate_recipe_config_spec in Hv as (_ & _ & ->).
  split; [reflexivity|]. split; [|split].
  - unfold config_mirror, with_mirror_key in *; cbn [cfg_mirror] in *.
    intros [Hmiss | Hempty].
    + rewrite Hmiss in Hm. now injection Hm as <-.
    + rewrite Hempty in Hm. now injection Hm as <-.
  - intros d Hd He. unfold config_mirror in Hm. rewrite Hd in Hm. injection Hm as <-.
    unfold Mirror_init. destruct (dict_truthy d); cbn [mirror_source]; [|reflexivity].
    now rewrite He.
  - intro Hn. unfold push_to_cache. now rewrite Hn.
Qed.

(** The stages of a resolved plan: the bootstrap stage and the gcc stage
    that requires the spec it was made of, then the llvm stage if any. *)
Lemma generate_compiler_specs_stages (self self' : Recipe) (raw : RawCompilers) :
  generate_compiler_specs self raw = inr self' ->
  exists s gs llvm,
    self_compilers self' =
    ("bootstrap", {| st_packages := Some bootstrap_packages;
                     st_specs := [s ++ " languages=c,c++";
                                  "squashfs default_compression=zstd"];
                     st_requires := None |})
      :: ("gcc", {| st_packages := Some gcc_packages;
                    st_specs := gs;
                    st_requires := Some s |})
      :: llvm.
Proof.
  intro H. unfold generate_compiler_specs, resolve_compilers, bind in H.
  destruct (getitem "bootstrap" (raw_bootstrap raw)) as [e|b]; [discriminate|].
  destruct (getitem "specs" (raw_specs b)) as [e|bs]; [discriminate|].
  destruct (first_item bs) as [e|s]; [discriminate|].
  destruct (getitem "gcc" (raw_gcc raw)) as [e|g]; [discriminate|].
  destruct (getitem "specs" (raw_specs g)) as [e|gs]; [discriminate|].
  destruct (resolve_llvm raw) as [e|llvm]; [discriminate|].
  injection H as <-. now exists s, gs, llvm.
Qed.

(** X17.  What a constructed recipe guarantees.  Its path is the recipe
    argument, taken from the current directory when relative, and is a
    directory; the config is the loaded document with a [mirror] key, and
    its system is supported; [packages] is bound to a document without
    unsupported sets whose sets all have their three keys; the plan starts
    with the bootstrap and gcc stages, gcc requiring the very spec that the
    bootstrap stage's first spec extends; and the modules file is the
    recipe's own when there is one, the default of the spack checkout under
    the build argument otherwise. *)
Theorem Recipe_init_invariants (args : Args) (obj : RecipeObject) :
  Recipe_init isdir isfile load_compilers load_packages load_config cwd root args = inr obj ->
  obj_path obj = resolve_path cwd (args_recipe args) /\
  (isabs cwd = true -> isabs (obj_path obj) = true) /\
  isdir (obj_path obj) = true /\
  obj_root obj = root /\
  obj_config obj = with_mirror_key (load_config (path_join (obj_path obj) "config.yaml")) /\
  system_valid (obj_config obj) = true /\
  (exists packages,
      self_packages (obj_resolved obj) = Some packages /\
      all_supported packages /\
      Forall (fun nc => keys_present (snd nc) = true) packages) /\
  (exists bootstrap gcc required,
      lookup "bootstrap" (self_compilers (obj_resolved obj)) = Some bootstrap /\
      lookup "gcc" (self_compilers (obj_resolved obj)) = Some gcc /\
      st_requires gcc = Some required /\
      st_specs bootstrap = [required ++ " languages=c,c++";
                            "squashfs default_compression=zstd"]) /\
  obj_modules obj =
    (if isfile (PStr (path_join (obj_path obj) "modules.yaml"))
     then path_join (obj_path obj) "modules.yaml"
     else path_join (args_build args) "spack/etc/spack/defaults/modules.yaml").
Proof.
  intro H. apply Recipe_init_returned in H.
  destruct H as (Hd & _ & _ & _ & rc & self1 & rp & packages & self2 & config & source
                 & mirror_config & _ & Hg & _ & Hgp & Hv & _ & _ & ->).
  cbn [obj_path obj_root obj_config obj_resolved obj_modules].
  apply validate_recipe_config_spec in Hv as (_ & Hsys & ->).
  pose proof (generate_package_specs_pointwise self1 rp) as Hpoint.
  rewrite Hgp in Hpoint. cbn [fst] in Hpoint.
  destruct (generate_package_specs_ok _ _ _ _ Hgp) as (Hsup & -> & ->).
  destruct (generate_compiler_specs_stages _ _ _ Hg) as (s & gs & llvm & Hstages).
  repeat split; try assumption; try reflexivity.
  - intro Hcwd. unfold resolve_path.
    destruct (isabs (args_recipe args)) eqn:Ha; cbn [negb]; [exact Ha|].
    rewrite (path_join_relative _ _ Ha). now apply isabs_append.
  - eexists. split; [reflexivity|]. split.
    + now apply all_supported_expanded.
    + exact (keys_present_pointwise _ _ Hpoint).
  - cbn [self_compilers]. rewrite Hstages. do 3 eexists. repeat split.
  - unfold select_modules.
    now destruct (isfile (PStr (path_join (resolve_path cwd (args_recipe args))
                                          "modules.yaml"))).
Qed.

End RecipeInitProperties.

Lemma Recipe_init_mirror_witness :
  mirror_source (obj_mirror example_object) =
    Some "/opt/sstool/share/cluster-config/hohgant/mirrors.yaml" /\
  example_isfile (mirror_key (obj_mirror example_object)) = true /\
  (truthy (push_to_cache (obj_mirror example_object)) = true ->
   exists source, mirror_source (obj_mirror example_object) = Some source /\
                  example_isfile (PStr source) = true /\
                  example_isfile (mirror_key (obj_mirror example_object)) = true).
Proof.
  destruct (Recipe_init_mirror example_isdir example_isfile
              (fun _ => Some example_compilers) (fun _ => Some example_packages)
              (fun _ => example_config) "/work" "/opt/sstool" example_args example_object
              eq_refl) as (_ & Hkey & Hpush).
  split; [reflexivity|]. split; [|exact Hpush].
  apply Hkey. discriminate.
Defined.

Lemma Recipe_init_no_mirror_witness :
  example_Recipe_init example_isfile
    {| cfg_mirror := Missing; cfg_system := Some "hohgant" |} <>
  inl TypeError /\
  obj_mirror (returned example_object
                (example_Recipe_init example_isfile
                   {| cfg_mirror := Missing; cfg_system := Some "hohgant" |})) =
  {| mirror_key := PNone; mirror_source := None |}.
Proof.
  split; [discriminate|].
  refine (proj1 (proj2 (Recipe_init_no_mirror example_isdir example_isfile
                          (fun _ => Some example_compilers)
                          (fun _ => Some example_packages)
                          (fun _ => {| cfg_mirror := Missing;
                                       cfg_system := Some "hohgant" |})
                          "/work" "/opt/sstool" example_args _ eq_refl)) _).
  now left.
Defined.

Lemma Recipe_init_invariants_witness :
  obj_path example_object = "/work/recipe" /\
  obj_modules example_object = "build/spack/etc/spack/defaults/modules.yaml" /\
  system_valid (obj_config example_object) = true.
Proof.
  destruct (Recipe_init_invariants example_isdir example_isfile
              (fun _ => Some example_compilers) (fun _ => Some example_packages)
              (fun _ => example_config) "/work" "/opt/sstool" example_args example_object
              eq_refl) as (Hpath & _ & _ & _ & _ & Hsys & _ & _ & Hmod).
  split; [exact Hpath|]. split; [exact Hmod | exact Hsys].
Defined.

(** ** The errors of the constructor *)

Lemma generate_compiler_specs_exn (self : Recipe) (raw : RawCompilers) (e : exn) :
  generate_compiler_specs self raw = inl e -> forall msg, e <> FileNotFoundError msg.
Proof.
  unfold generate_compiler_specs, resolve_compilers, resolve_llvm, bind, getitem, first_item.
  intros H msg ->.
  destruct (raw_bootstrap raw) as [b|]; [|discriminate].
  destruct (raw_specs b) as [[|s rest]|]; try discriminate.
  destruct (raw_gcc raw) as [g|]; [|discriminate].
  destruct (raw_specs g) as [gs|]; [|discriminate].
  destruct (raw_llvm raw) as [l|]; [|discriminate].
  destruct (raw_specs l) as [ls|]; [|discriminate].
  destruct (raw_requires l) as [lr|]; discriminate.
Qed.

Lemma generate_package_specs_exn (self : Recipe) (raw : Packages) (e : exn) :
  snd (generate_package_specs self raw) = inl e -> forall msg, e <> FileNotFoundError msg.
Proof.
  unfold generate_package_specs. intros H msg ->.
  destruct (all_supported_dec raw) as [Hs | Hu].
  - rewrite (expand_loop_supported _ Hs) in H. discriminate.
  - destruct (first_unsupported _ Hu) as (pre & n & c & post & impl & -> & Hpre & Hc).
    rewrite (expand_loop_unsupported pre post n c impl Hpre Hc) in H. discriminate.
Qed.

(** The messages of validation start otherwise than the messages of the
    constructor. *)
Lemma validate_recipe_config_message (isfile : pyval -> bool) (config : RawConfig)
      (msg : string) :
  validate_recipe_config isfile config = inl (FileNotFoundError msg) ->
  startswith msg "The recipe" = false.
Proof.
  unfold validate_recipe_config, validate_mirror, validate_system, path_isfile.
  destruct (cfg_mirror config) as [| |m].
  - cbn [cfg_system]. destruct (cfg_system config) as [system|]; [|discriminate].
    destruct (negb (existsb (String.eqb system) ["hohgant"; "balfrin"]));
      [|discriminate].
    now intros [= <-].
  - discriminate.
  - assert (Hsys : forall p,
               match cfg_system config with
               | Some system =>
                   if negb (existsb (String.eqb system) ["hohgant"; "balfrin"])
                   then inl (FileNotFoundError
                               ("The  system '" ++ system ++
                                "' must be one of hohgant or balfrin"))
                   else inr config
               | None =>
                   match p with
                   | Some p0 => inl (FileNotFoundError
                                       ("The  '" ++ py_str p0 ++ "' does not exist"))
                   | None => inl (UnboundLocalError "p")
                   end
               end = inl (FileNotFoundError msg) ->
               startswith msg "The recipe" = false).
    { intro p. destruct (cfg_system config) as [system|].
      - destruct (negb (existsb (String.eqb system) ["hohgant"; "balfrin"]));
          [|discriminate].
        now intros [= <-].
      - destruct p; [|discriminate]. now intros [= <-]. }
    destruct (lookup "key" m) as [[|b|k]|]; try discriminate.
    + destruct (isfile (PBool b)); [apply (Hsys (Some (PBool b)))|].
      now intros [= <-].
    + destruct (isfile (PStr k)); [apply (Hsys (Some (PStr k)))|].
      now intros [= <-].
    + apply (Hsys None).
Qed.

(** Two messages of the constructor are equal only if what follows their
    common beginning is. *)
Lemma recipe_prefix_cancel (x y : string) :
  "The recipe path '" ++ x = "The recipe path '" ++ y -> x = y.
Proof.
  apply append_cancel_l.
Qed.

Lemma path_sep_cases (path : string) : path_sep path = "" \/ path_sep path = "/".
Proof.
  unfold path_sep. destruct (negb (str_truthy path) || endswith path "/"); auto.
Qed.

(** Refutes the goal [m1 = m2 -> _] for two messages of the constructor
    about the same path that are different. *)
Ltac recipe_messages_differ path :=
  let H := fresh "H" in
  let Hsep := fresh "Hsep" in
  intro H;
  apply recipe_prefix_cancel in H;
  repeat rewrite path_join_relative in H by reflexivity;
  repeat rewrite string_append_assoc in H;
  apply append_cancel_l in H;
  try (destruct (path_sep_cases path) as [Hsep | Hsep]; rewrite Hsep in H);
  discriminate.

(** Settles [msg = m <-> checks] once the outcome of the checks is known:
    either both sides hold, or the message is another one and a check
    has another outcome. *)
Ltac message_case path :=
  split;
  [ first [ solve [intros _; repeat split; reflexivity]
          | solve [recipe_messages_differ path] ]
  | first [ solve [intros _; reflexivity]
          | solve [let Hx := fresh "Hx" in
                   intro Hx; decompose [and] Hx; discriminate] ] ].

Section RecipeInitErrors.

Variable isdir : string -> bool.
Variable isfile : pyval -> bool.
Variable load_compilers : string -> option RawCompilers.
Variable load_packages : string -> option Packages.
Variable load_config : string -> RawConfig.
Variable cwd : string.
Variable root : string.

(** X18.  The caller can tell from the message which file is missing.  When
    the constructor raises [FileNotFoundError], its message is the one about
    the recipe directory exactly when that is not a directory, and the one
    about compilers.yaml, packages.yaml or config.yaml exactly when that
    file is the first of the three that does not exist; the message for
    config.yaml, which also ends in "does not contain compilers.yaml",
    differs from the one for compilers.yaml by the path it quotes. *)
Theorem Recipe_init_missing_file (args : Args) (msg : string) :
  Recipe_init isdir isfile load_compilers load_packages load_config cwd root args =
  inl (FileNotFoundError msg) ->
  let path := resolve_path cwd (args_recipe args) in
  (msg = "The recipe path '" ++ path ++ "' does not exist" <-> isdir path = false) /\
  (msg = "The recipe path '" ++ path_join path "compilers.yaml"
         ++ "' does not contain compilers.yaml" <->
   isdir path = true /\ isfile (PStr (path_join path "compilers.yaml")) = false) /\
  (msg = "The recipe path '" ++ path_join path "packages.yaml"
         ++ "' does not contain packages.yaml" <->
   isdir path = true /\ isfile (PStr (path_join path "compilers.yaml")) = true /\
   isfile (PStr (path_join path "packages.yaml")) = false) /\
  (msg = "The recipe path '" ++ path_join path "config.yaml"
         ++ "' does not contain compilers.yaml" <->
   isdir path = true /\ isfile (PStr (path_join path "compilers.yaml")) = true /\
   isfile (PStr (path_join path "packages.yaml")) = true /\
   isfile (PStr (path_join path "config.yaml")) = false).
Proof.
  intros H path. unfold Recipe_init in H. fold path in H.
  destruct (isdir path) eqn:Hd; cbv beta iota delta [negb] in H.
  2:{ injection H as <-. repeat (split; [message_case path|]). message_case path. }
  destruct (isfile (PStr (path_join path "compilers.yaml"))) eqn:Hc;
    cbv beta iota delta [negb] in H.
  2:{ injection H as <-. repeat (split; [message_case path|]). message_case path. }
  destruct (load_compilers (path_join path "compilers.yaml")) as [rc|];
    cbv beta iota delta [getitem bind] in H; [|discriminate].
  destruct (generate_compiler_specs _ rc) as [e|self1] eqn:Hg;
    cbv beta iota delta [bind] in H.
  { injection H as ->. exfalso.
    exact (generate_compiler_specs_exn _ _ _ Hg msg eq_refl). }
  destruct (isfile (PStr (path_join path "packages.yaml"))) eqn:Hp;
    cbv beta iota delta [negb] in H.
  2:{ injection H as <-. repeat (split; [message_case path|]). message_case path. }
  destruct (load_packages (path_join path "packages.yaml")) as [rp|];
    cbv beta iota delta [getitem bind] in H; [|discriminate].
  destruct (snd (generate_package_specs self1 rp)) as [e|self2] eqn:Hgp;
    cbv beta iota delta [bind] in H.
  { injection H as ->. exfalso.
    exact (generate_package_specs_exn _ _ _ Hgp msg eq_refl). }
  destruct (isfile (PStr (path_join path "config.yaml"))) eqn:Hf;
    cbv beta iota delta [negb] in H.
  2:{ injection H as <-. repeat (split; [message_case path|]). message_case path. }
  destruct (validate_recipe_config isfile (load_config (path_join path "config.yaml")))
    as [e|config] eqn:Hv; cbv beta iota delta [bind] in H.
  { injection H as ->. apply validate_recipe_config_message in Hv.
    assert (Hmsg : forall rest, msg <> "The recipe path '" ++ rest).
    { intros rest ->. cbn in Hv. discriminate. }
    split; [|split; [|split]]; split;
      try (intro Hx; exfalso; exact (Hmsg _ Hx));
      try (intro Hx; decompose [and] Hx; discriminate). }
  destruct (select_mirrors_source isfile root path config) as [e|source] eqn:Hs;
    cbv beta iota delta [bind] in H.
  { unfold select_mirrors_source in Hs.
    destruct (isfile (PStr (path_join path "mirrors.yaml"))); [discriminate|].
    destruct (cfg_system config); cbn [getitem bind] in Hs; [discriminate|].
    injection Hs as <-. discriminate. }
  destruct (config_mirror config) as [e|mc] eqn:Hm; cbv beta iota delta [bind] in H;
    [|discriminate].
  unfold config_mirror in Hm. destruct (cfg_mirror config); try discriminate.
  injection Hm as <-. discriminate.
Qed.

End RecipeInitErrors.

Lemma Recipe_init_missing_file_witness :
  example_Recipe_init example_isfile_no_config example_config =
  inl (FileNotFoundError
         "The recipe path '/work/recipe/config.yaml' does not contain compilers.yaml") /\
  example_isfile_no_config (PStr "/work/recipe/config.yaml") = false.
Proof.
  split; [reflexivity|].
  pose proof (Recipe_init_missing_file example_isdir example_isfile_no_config
                (fun _ => Some example_compilers) (fun _ => Some example_packages)
                (fun _ => example_config) "/work" "/opt/sstool" example_args
                "The recipe path '/work/recipe/config.yaml' does not contain compilers.yaml"
                eq_refl) as H.
  cbv zeta in H. destruct H as (_ & _ & _ & H).
  exact (proj2 (proj2 (proj2 (proj1 H eq_refl)))).
Defined.

(** ** The copies into the build configuration *)

Lemma copy_system_configs_in (isfile : pyval -> bool) (system_configs_path config_path : string)
      (listing : list string) (src dst : string) :
  In (src, dst) (copy_system_configs isfile system_configs_path config_path listing) <->
  exists f, In f listing /\ f <> "mirrors.yaml" /\
            src = path_join system_configs_path f /\
            dst = path_join config_path f /\
            isfile (PStr src) = true.
Proof.
  induction listing as [|f listing IH]; cbn [copy_system_configs].
  { split; [intros [] | intros (f & [] & _)]. }
  cbn [existsb]. rewrite orb_false_r.
  destruct (f =? "mirrors.yaml") eqn:Hf.
  - apply String.eqb_eq in Hf. rewrite IH. split.
    + intros (g & Hg & Hrest). exists g. split; [now right | exact Hrest].
    + intros (g & [<- | Hg] & Hne & Hrest); [congruence|]. now exists g.
  - apply String.eqb_neq in Hf.
    destruct (isfile (PStr (path_join system_configs_path f))) eqn:Hfile.
    + cbn [In]. rewrite IH. split.
      * intros [[= <- <-] | (g & Hg & Hrest)].
        -- exists f. repeat split; auto.
        -- exists g. split; [now right | exact Hrest].
      * intros (g & [<- | Hg] & Hne & -> & -> & Hi); [now left|].
        right. exists g. repeat split; auto.
    + rewrite IH. split.
      * intros (g & Hg & Hrest). exists g. split; [now right | exact Hrest].
      * intros (g & [<- | Hg] & Hne & -> & -> & Hi); [congruence|].
        exists g. repeat split; auto.
Qed.

(** X19.  [mirrors.yaml] reaches the build configuration only from the
    mirror of the recipe.  With the names that [os.listdir] returns for the
    system configuration directory (bare names), no copy of the loop writes
    [config/mirrors.yaml]; that file is written exactly when the mirror has
    a source, from that source and as the last copy; and every other copy
    takes a file of the system configuration directory to the same name
    under [config]. *)
Theorem generate_config_copies_mirrors (isfile : pyval -> bool) (self : Build)
        (system_configs_path : string) (mirror : Mirror) (listing : list string) :
  Forall (fun f => isabs f = false) listing ->
  let config_path := path_join (build_path self) "config" in
  let target := path_join config_path "mirrors.yaml" in
  let copies := generate_config_copies isfile self system_configs_path mirror listing in
  (forall src, In (src, target) copies <->
               mirror_source mirror = Some src /\ src <> "") /\
  (forall src, mirror_source mirror = Some src -> src <> "" ->
               last copies ("", "") = (src, target)) /\
  (forall src dst,
      In (src, dst) copies -> dst <> target ->
      exists f, In f listing /\ f <> "mirrors.yaml" /\
                src = path_join system_configs_path f /\
                dst = path_join config_path f /\
                isfile (PStr src) = true).
Proof.
  intros Hnames config_path target copies.
  assert (Hloop : forall src,
             ~ In (src, target)
                  (copy_system_configs isfile system_configs_path config_path listing)).
  { intros src Hin. apply copy_system_configs_in in Hin as (f & Hf & Hne & _ & Heq & _).
    rewrite Forall_forall in Hnames. apply Hne.
    symmetry in Heq. unfold target in Heq.
    exact (path_join_injective config_path f "mirrors.yaml" (Hnames f Hf) eq_refl Heq). }
  unfold copies, generate_config_copies. fold config_path. fold target.
  destruct (mirror_source mirror) as [source|].
  - destruct (str_truthy source) eqn:Ht.
    + apply str_truthy_true in Ht. unfold list_append. split; [|split].
      * intro src. rewrite in_app_iff. cbn [In]. split.
        -- intros [Hin | [[= <-] | []]]; [now apply Hloop in Hin | auto].
        -- intros ([= <-] & _). right. now left.
      * intros src [= <-] _. apply last_last.
      * intros src dst Hin Hdst. apply in_app_or in Hin as [Hin | [[= <- <-] | []]].
        -- now apply copy_system_configs_in.
        -- congruence.
    + unfold str_truthy in Ht. apply negb_false_iff, String.eqb_eq in Ht. subst source.
      split; [|split].
      * intro src. split; [intro Hin; now apply Hloop in Hin|].
        intros ([= <-] & Hne). congruence.
      * intros src [= <-] Hne. congruence.
      * intros src dst Hin _. now apply copy_system_configs_in.
  - split; [|split].
    + intro src. split; [intro Hin; now apply Hloop in Hin | intros (H & _); discriminate].
    + intros src H. discriminate.
    + intros src dst Hin _. now apply copy_system_configs_in.
Qed.

Lemma generate_config_copies_mirrors_witness :
  generate_config_copies example_isfile
    {| build_path := "/work/build"; build_root := "/opt/sstool" |}
    "/opt/sstool/share/cluster-config/hohgant"
    {| mirror_key := PNone;
       mirror_source := Some "/opt/sstool/share/cluster-config/hohgant/mirrors.yaml" |}
    ["mirrors.yaml"; "packages.yaml"] =
  [("/opt/sstool/share/cluster-config/hohgant/mirrors.yaml",
    "/work/build/config/mirrors.yaml")] /\
  last (generate_config_copies example_isfile
          {| build_path := "/work/build"; build_root := "/opt/sstool" |}
          "/opt/sstool/share/cluster-config/hohgant"
          {| mirror_key := PNone;
             mirror_source := Some "/opt/sstool/share/cluster-config/hohgant/mirrors.yaml" |}
          ["mirrors.yaml"; "packages.yaml"]) ("", "") =
  ("/opt/sstool/share/cluster-config/hohgant/mirrors.yaml",
   "/work/build/config/mirrors.yaml").
Proof.
  split; [reflexivity|].
  pose proof (generate_config_copies_mirrors example_isfile
                {| build_path := "/work/build"; build_root := "/opt/sstool" |}
                "/opt/sstool/share/cluster-config/hohgant"
                {| mirror_key := PNone;
                   mirror_source :=
                     Some "/opt/sstool/share/cluster-config/hohgant/mirrors.yaml" |}
                ["mirrors.yaml"; "packages.yaml"]
                ltac:(repeat constructor)) as H.
  cbv zeta in H. destruct H as (_ & H & _).
  apply (H _ eq_refl). discriminate.
Defined.

(** ** When the constructor returns *)

Lemma generate_compiler_specs_wf (self : Recipe) (raw : RawCompilers) :
  (exists self', generate_compiler_specs self raw = inr self') <-> compilers_wf raw = true.
Proof.
  unfold generate_compiler_specs, resolve_compilers, resolve_llvm, compilers_wf, llvm_ok,
    bind, getitem, first_item.
  destruct (raw_bootstrap raw) as [[[[|s rest]|] br]|];
    destruct (raw_gcc raw) as [[[gs|] gr]|];
    destruct (raw_llvm raw) as [[[ls|] [lr|]]|];
    cbn [raw_specs raw_requires].
  all: split; [intros [x Hx]; first [reflexivity | discriminate]
              | intro Hwf; first [discriminate | eexists; reflexivity]].
Qed.

Lemma generate_package_specs_supported (self : Recipe) (raw : Packages) :
  (exists self', snd (generate_package_specs self raw) = inr self') <-> all_supported raw.
Proof.
  split.
  - intros [self' H].
    destruct (generate_package_specs self raw) as [raw' outcome] eqn:Hg.
    cbn [snd] in H. subst outcome.
    now destruct (generate_package_specs_ok _ _ _ _ Hg).
  - intro H. unfold generate_package_specs. rewrite (expand_loop_supported _ H).
    eexists. reflexivity.
Qed.

Section RecipeInitReturns.

Variable isdir : string -> bool.
Variable isfile : pyval -> bool.
Variable load_compilers : string -> option RawCompilers.
Variable load_packages : string -> option Packages.
Variable load_config : string -> RawConfig.
Variable cwd : string.
Variable root : string.

(** X12.  When each of the three documents that exists can be read and
    loads as a mapping of the modelled types (stages and sets that are
    mappings, specs lists of strings, an mpi that is null or a string, a
    mirror section that is null or a mapping, a system that is a string),
    [Recipe.__init__] returns exactly when the recipe path is a directory
    that holds the three documents; the compilers document has a
    [compilers] key with a bootstrap stage declaring a spec, a gcc stage with
    specs and, if any, an llvm stage with specs and requires; the packages
    document has a [packages] key and no set with a truthy mpi outside the
    table; and the config has system hohgant or balfrin and a mirror section
    that is absent or is a mapping (not null) whose key, if it has one, is
    not null and names an existing file.  Neither the modules file nor the
    mirrors files need exist. *)
Theorem Recipe_init_returns_iff (args : Args) :
  let path := resolve_path cwd (args_recipe args) in
  (exists obj,
      Recipe_init isdir isfile load_compilers load_packages load_config cwd root args
      = inr obj) <->
  isdir path = true /\
  isfile (PStr (path_join path "compilers.yaml")) = true /\
  (exists raw, load_compilers (path_join path "compilers.yaml") = Some raw /\
               compilers_wf raw = true) /\
  isfile (PStr (path_join path "packages.yaml")) = true /\
  (exists raw, load_packages (path_join path "packages.yaml") = Some raw /\
               all_supported raw) /\
  isfile (PStr (path_join path "config.yaml")) = true /\
  mirror_valid isfile (load_config (path_join path "config.yaml")) = true /\
  system_valid (load_config (path_join path "config.yaml")) = true.
Proof.
  intro path. split.
  - intros [obj H]. apply Recipe_init_returned in H. fold path in H.
    destruct H as (Hd & Hc & Hp & Hf & rc & self1 & rp & packages & self2 & config
                   & source & mirror_config & Hlc & Hg & Hlp & Hgp & Hv & _).
    apply validate_recipe_config_spec in Hv as (Hm & Hs & _).
    repeat split; try assumption.
    + exists rc. split; [exact Hlc|].
      apply (generate_compiler_specs_wf {| self_compilers := []; self_packages := None |}).
      now exists self1.
    + exists rp. split; [exact Hlp|].
      apply (generate_package_specs_supported self1). exists self2. now rewrite Hgp.
  - intros (Hd & Hc & (rc & Hlc & Hwf) & Hp & (rp & Hlp & Hsup) & Hf & Hm & Hs).
    apply (generate_compiler_specs_wf {| self_compilers := []; self_packages := None |})
      in Hwf as [self1 Hg].
    apply (generate_package_specs_supported self1) in Hsup as [self2 Hgp].
    assert (Hv : validate_recipe_config isfile (load_config (path_join path "config.yaml"))
                 = inr (with_mirror_key (load_config (path_join path "config.yaml")))).
    { apply validate_recipe_config_spec. auto. }
    unfold Recipe_init. fold path.
    rewrite Hd, Hc, Hlc. cbv beta iota delta [negb getitem bind].
    rewrite Hg, Hp, Hlp. cbv beta iota delta [negb getitem bind].
    rewrite Hgp, Hf, Hv. cbv beta iota delta [negb getitem bind].
    unfold system_valid in Hs.
    destruct (cfg_system (load_config (path_join path "config.yaml"))) as [system|] eqn:Hsys;
      [|discriminate].
    unfold select_mirrors_source, config_mirror, with_mirror_key;
      cbn [cfg_mirror cfg_system]. rewrite Hsys.
    destruct (isfile (PStr (path_join path "mirrors.yaml")));
      destruct (cfg_mirror (load_config (path_join path "config.yaml")));
      cbv beta iota delta [getitem bind]; eexists; reflexivity.
Qed.

End RecipeInitReturns.

Lemma Recipe_init_returns_iff_witness :
  exists obj, example_Recipe_init example_isfile example_config = inr obj.
Proof.
  apply (proj2 (Recipe_init_returns_iff example_isdir example_isfile
                  (fun _ => Some example_compilers) (fun _ => Some example_packages)
                  (fun _ => example_config) "/work" "/opt/sstool" example_args)).
  repeat split.
  - exists example_compilers. split; reflexivity.
  - exists example_packages. split; [reflexivity|].
    repeat constructor.
Defined.
